(** * BigQuery -> Elasticsearch indexer: a shallow embedding of
      [bigquery/indexer.py] and the properties of its merge logic. *)

From Stdlib Require Import String Ascii ZArith Lia.
From stdpp Require Import gmap strings list fin_maps.

Local Open Scope string_scope.
Local Open Scope list_scope.
Local Open Scope Z_scope.
Set Warnings "-register-all".

(** ** Values *)

(** The scalars a row cell, a document field or a script parameter holds
    once it is not null. *)
Inductive scalar :=
  | SBool (b : bool)
  | SInt (z : Z)
  | SStr (s : string).

Global Instance scalar_eq_dec : EqDecision scalar.
Proof. solve_decision. Defined.

Definition scalar_to_sum (v : scalar) : bool + (Z + string) :=
  match v with
  | SBool b => inl b
  | SInt z => inr (inl z)
  | SStr s => inr (inr s)
  end.

Definition scalar_of_sum (x : bool + (Z + string)) : scalar :=
  match x with
  | inl b => SBool b
  | inr (inl z) => SInt z
  | inr (inr s) => SStr s
  end.

Global Instance scalar_countable : Countable scalar.
Proof.
  apply (inj_countable' scalar_to_sum scalar_of_sum).
  by intros [].
Defined.

(** Python truthiness of a non-null cell: [bool(v)]. *)
Definition truthy (v : scalar) : bool :=
  match v with
  | SBool b => b
  | SInt z => negb (z =? 0)
  | SStr s => negb (String.eqb s "")
  end.

(** A Python dict with string keys. *)
Abbreviation dict := (gmap string scalar).

(** One row of a pandas DataFrame: column name to cell; the cell [None] is a
    null (NaN/None), which [dropna] removes. *)
Abbreviation row := (gmap string (option scalar)).

Record DataFrame := {
  columns : list string;
  rows : list row
}.

(** ** Exceptions *)

Inductive exn :=
  | KeyError (key : string)
  | ValueError (msg : string)
  | NullPointerException
  | IndexOutOfBounds.

Inductive result (A : Type) :=
  | Ok (a : A)
  | Raise (e : exn).
Arguments Ok {A} a.
Arguments Raise {A} e.

Global Instance result_ret : MRet result := λ A a, Ok a.
Global Instance result_bind : MBind result := λ A B k r,
  match r with
  | Ok a => k a
  | Raise e => Raise e
  end.

(** Evaluating a sequence of fallible steps from left to right, stopping at
    the first exception. *)
Fixpoint foldM {A B} (f : A → B → result A) (a : A) (l : list B) : result A :=
  match l with
  | [] => Ok a
  | b :: l' => a' ← f a b ; foldM f a' l'
  end.


(** A generator handed to a consumer: the items it yields before it raises
    (if it does). *)
Fixpoint consume {A} (gen : list (result A)) : list A * option exn :=
  match gen with
  | [] => ([], None)
  | Ok a :: gen' => let '(items, e) := consume gen' in (a :: items, e)
  | Raise e :: _ => ([], Some e)
  end.

(** ** Strings *)

(** [needle in hay] on Python strings. *)
Fixpoint contains (needle hay : string) : bool :=
  String.prefix needle hay ||
  match hay with
  | EmptyString => false
  | String _ hay' => contains needle hay'
  end.

Definition lower_ascii (c : ascii) : ascii :=
  let n := N_of_ascii c in
  if ((65 <=? n) && (n <=? 90))%N then ascii_of_N (n + 32) else c.

Fixpoint string_map (f : ascii → ascii) (s : string) : string :=
  match s with
  | EmptyString => EmptyString
  | String c s' => String (f c) (string_map f s')
  end.

(** [s.lower()], on the letters A to Z: what it is on a string of
    characters below 128 ([is_ascii]). *)
Definition lower : string → string := string_map lower_ascii.

(** [s.replace(" ", "_")] *)
Definition replace_space : string → string :=
  string_map (λ c, if Ascii.eqb c " "%char then "_"%char else c).

(** [s.split('.')]: the pieces between the dots, empty ones included. *)
Fixpoint split_dot_aux (cur : string) (s : string) : list string :=
  match s with
  | EmptyString => [cur]
  | String c s' =>
      if Ascii.eqb c "."%char then cur :: split_dot_aux "" s'
      else split_dot_aux (cur +:+ String c "") s'
  end.

Definition split_dot (s : string) : list string := split_dot_aux "" s.

(** [s.rsplit(':', 1)]: [None] when there is no colon (the result then has
    one element), else what is left and right of the last colon. *)
Fixpoint rsplit_colon (s : string) : option (string * string) :=
  match s with
  | EmptyString => None
  | String c s' =>
      match rsplit_colon s' with
      | Some (l, r) => Some (String c l, r)
      | None => if Ascii.eqb c ":"%char then Some ("", s') else None
      end
  end.

(** ** Dict iteration *)

(** Python 2 leaves the order in which a dict is iterated unspecified: the
    development holds for every order. *)
Class DictOrder := {
  iteritems : ∀ {A}, gmap string A → list (string * A);
  iteritems_perm : ∀ A (m : gmap string A), iteritems m ≡ₚ map_to_list m
}.

(** One order, for examples. *)
Definition sorted_order : DictOrder :=
  {| iteritems := λ A m, map_to_list m;
     iteritems_perm := λ A m, reflexivity _ |}.

(** [del d[k]] *)
Definition dict_del {A} (k : string) (d : gmap string A) : result (gmap string A) :=
  match d !! k with
  | Some _ => Ok (delete k d)
  | None => Raise (KeyError k)
  end.

(** [row.dropna().to_dict()] *)
Definition dropna (r : row) : dict := omap id r.

(** [table_name + '.' + k] *)
Definition scoped (table_name k : string) : string := table_name +:+ "." +:+ k.

Section generators.
Context `{DictOrder}.

(** [{f(k): v for k, v in d.iteritems()}] *)
Definition dict_comp (f : string → string) (d : dict) : dict :=
  foldl (λ acc kv, <[f kv.1 := kv.2]> acc) ∅ (iteritems d).

(** The body of the loop of [_docs_by_id], for one row. *)
Definition _docs_by_id_row (table_name participant_id_column : string)
    (r : row) : result (scalar * dict) :=
  let row_dict := dropna r in
  row_dict ← dict_del participant_id_column row_dict ;
  let row_dict := dict_comp (scoped table_name) row_dict in
  match r !! participant_id_column with
  | Some (Some id) => Ok (id, row_dict)
  | _ => Raise (KeyError participant_id_column)
  end.

Definition _docs_by_id (df : DataFrame) (table_name participant_id_column : string)
    : list (result (scalar * dict)) :=
  _docs_by_id_row table_name participant_id_column <$> rows df.

(** A scripted update: [source] is [UPDATE_SAMPLES_SCRIPT] instantiated with
    the column named by [script_key]; [params_sample] is [params.sample]. *)
Record script := {
  script_key : string;
  lang : string;
  params_sample : dict
}.

(** [table_name + '.' + k if k != sample_id_column else k] *)
Definition sample_key (table_name sample_id_column k : string) : string :=
  if decide (k ≠ sample_id_column) then scoped table_name k else k.

(** ['_has_%s' % file_type.lower().replace(" ", "_")] *)
Definition has_name (file_type : string) : string :=
  "_has_" +:+ replace_space (lower file_type).

(** One turn of the loop over [sample_file_columns]. *)
Definition mark_file_column (table_name : string) (row_dict : dict)
    (item : string * string) : dict :=
  let '(file_type, col) := item in
  if contains table_name col then
    match row_dict !! col with
    | Some v =>
        if truthy v then <[has_name file_type := SBool true]> row_dict
        else <[has_name file_type := SBool false]> row_dict
    | None => <[has_name file_type := SBool false]> row_dict
    end
  else row_dict.

Definition mark_file_columns (table_name : string)
    (sample_file_columns : gmap string string) (row_dict : dict) : dict :=
  foldl (mark_file_column table_name) row_dict (iteritems sample_file_columns).

(** The body of the loop of [_sample_scripts_by_id], for one row. *)
Definition _sample_scripts_by_id_row
    (table_name participant_id_column sample_id_column : string)
    (sample_file_columns : gmap string string) (r : row)
    : result (scalar * script) :=
  let row_dict := dropna r in
  row_dict ← dict_del participant_id_column row_dict ;
  let row_dict := dict_comp (sample_key table_name sample_id_column) row_dict in
  let row_dict := mark_file_columns table_name sample_file_columns row_dict in
  match r !! participant_id_column with
  | Some (Some id) =>
      Ok (id, {| script_key := sample_id_column;
                 lang := "painless";
                 params_sample := row_dict |})
  | _ => Raise (KeyError participant_id_column)
  end.

Definition _sample_scripts_by_id (df : DataFrame)
    (table_name participant_id_column sample_id_column : string)
    (sample_file_columns : gmap string string)
    : list (result (scalar * script)) :=
  _sample_scripts_by_id_row table_name participant_id_column sample_id_column
    sample_file_columns <$> rows df.

End generators.

(** ** The update script *)

(** [ctx._source]: the scalar fields of an entity document and, under the key
    [samples] when it is there, the array of its sub-entities. *)
Record source := {
  fields : dict;
  samples : option (list dict)
}.

(** The [for] loop of [UPDATE_SAMPLES_SCRIPT]: [removeIdx] after the elements
    from index [i] on were visited. [get] on an element without the key gives
    null, and [equals] on null throws. *)
Fixpoint scan_samples (key : string) (sample : dict) (l : list dict)
    (i : Z) (removeIdx : Z) : result Z :=
  match l with
  | [] => Ok removeIdx
  | x :: l' =>
      match x !! key with
      | None => Raise NullPointerException
      | Some v =>
          scan_samples key sample l' (i + 1)
            (if decide (sample !! key = Some v) then i else removeIdx)
      end
  end.

(** [UPDATE_SAMPLES_SCRIPT % (key, key)] run on [ctx] with [params.sample]. *)
Definition UPDATE_SAMPLES_SCRIPT (key : string) (ctx : source) (sample : dict)
    : result source :=
  match samples ctx with
  | None => Ok {| fields := fields ctx; samples := Some [sample] |}
  | Some l =>
      removeIdx ← scan_samples key sample l 0 (-1) ;
      if decide (removeIdx >= 0) then
        match l !! Z.to_nat removeIdx with
        | Some merged =>
            let merged := sample ∪ merged in
            Ok {| fields := fields ctx;
                  samples := Some (delete (Z.to_nat removeIdx) l ++ [merged]) |}
        | None => Raise IndexOutOfBounds
        end
      else
        Ok {| fields := fields ctx; samples := Some (l ++ [sample]) |}
  end.

Definition run_script (ctx : source) (s : script) : result source :=
  UPDATE_SAMPLES_SCRIPT (script_key s) ctx (params_sample s).

(** ** Nested mappings *)

(** A BigQuery [SchemaField]. *)
Inductive SchemaField :=
  | Field (name : string) (field_type : string) (mode : string)
      (description : option string) (sub_fields : list SchemaField).

(** An Elasticsearch mapping entry: the dict under a field name, with its
    optional keys [type] and [properties]. *)
Inductive mapping :=
  | Mapping (mtype : option string) (properties : option (gmap string mapping)).

(** [if name not in nested: nested[name] = {}] and then
    [nested[name]['properties'] = inner], on the entry [o] under [name]. *)
Definition set_properties (o : option mapping) (inner : gmap string mapping)
    : mapping :=
  match o with
  | Some (Mapping t _) => Mapping t (Some inner)
  | None => Mapping None (Some inner)
  end.

(** [nested if nested else None] *)
Definition nonempty_or_none (nested : gmap string mapping)
    : option (gmap string mapping) :=
  if decide (nested = ∅) then None else Some nested.

(** [if prefix] *)
Definition prefixed (prefix : option string) (name : string) : string :=
  match prefix with
  | Some p => if String.eqb p "" then name else p +:+ "." +:+ name
  | None => name
  end.

(** One turn of the loop of [_get_nested_mappings]; the recursive call on the
    sub-fields passes no prefix. *)
Fixpoint nested_mappings_step (prefix : option string) (field : SchemaField)
    (nested : gmap string mapping) {struct field} : gmap string mapping :=
  match field with
  | Field fname ftype fmode _ subs =>
      let name := prefixed prefix fname in
      let inner_nested :=
        nonempty_or_none
          ((fix loop (l : list SchemaField) (acc : gmap string mapping) :=
              match l with
              | [] => acc
              | f :: l' => loop l' (nested_mappings_step None f acc)
              end) subs ∅) in
      let nested :=
        if String.eqb fmode "REPEATED" && String.eqb ftype "RECORD"
        then <[name := Mapping (Some "nested") None]> nested
        else nested in
      match inner_nested with
      | Some inner => <[name := set_properties (nested !! name) inner]> nested
      | None => nested
      end
  end.

Fixpoint nested_mappings_loop (prefix : option string) (schema : list SchemaField)
    (nested : gmap string mapping) : gmap string mapping :=
  match schema with
  | [] => nested
  | f :: l' => nested_mappings_loop prefix l' (nested_mappings_step prefix f nested)
  end.

Definition _get_nested_mappings (schema : list SchemaField) (prefix : option string)
    : option (gmap string mapping) :=
  nonempty_or_none (nested_mappings_loop prefix schema ∅).

Definition is_repeated_record (f : SchemaField) : bool :=
  match f with
  | Field _ ftype fmode _ _ => String.eqb fmode "REPEATED" && String.eqb ftype "RECORD"
  end.

Definition field_sub_fields (f : SchemaField) : list SchemaField :=
  match f with Field _ _ _ _ subs => subs end.

(** The entry a field of the schema ends with when no field before it has
    its name: [type] for a repeated record, [properties] when the mapping of
    its sub-fields, taken with no prefix, is not empty. *)
Definition field_entry (f : SchemaField) : option mapping :=
  match is_repeated_record f, _get_nested_mappings (field_sub_fields f) None with
  | true, inner => Some (Mapping (Some "nested") inner)
  | false, Some inner => Some (Mapping None (Some inner))
  | false, None => None
  end.

(** An entry keyed [name] somewhere in a mapping tree: at the top or under
    the [properties] of an entry. *)
Inductive has_entry : gmap string mapping → string → mapping → Prop :=
  | has_entry_here (m : gmap string mapping) name e :
      m !! name = Some e → has_entry m name e
  | has_entry_under (m : gmap string mapping) k t ps name e :
      m !! k = Some (Mapping t (Some ps)) → has_entry ps name e →
      has_entry m name e.

(** ** Indexing a table *)

Record table := {
  full_table_id : string;
  schema : list SchemaField
}.

(** Unpacking [rsplit(':', 1)] into two names fails when there is no colon. *)
Definition _table_name_from_table (t : table) : result string :=
  match rsplit_colon (full_table_id t) with
  | Some (project_id, dataset_table_id) => Ok (project_id +:+ "." +:+ dataset_table_id)
  | None => Raise (ValueError "need more than 1 value to unpack")
  end.

(** The calls made on the Elasticsearch client and on [indexer_util]'s bulk
    helpers, in the order they are made. A bulk call carries the items its
    generator yielded. *)
Inductive es_call :=
  | PutMapping (index : string) (body : mapping)
  | BulkIndexScripts (index : string) (scripts_by_id : list (scalar * script))
  | BulkIndexDocs (index : string) (docs_by_id : list (scalar * dict)).

Definition is_bulk (c : es_call) : bool :=
  match c with
  | PutMapping _ _ => false
  | _ => true
  end.

Definition field_name (f : SchemaField) : string :=
  match f with Field n _ _ _ _ => n end.

(** [sample_id_column in names], the column being optional ([None]). *)
Definition column_in (sample_id_column : option string) (names : list string) : bool :=
  match sample_id_column with
  | Some c => bool_decide (c ∈ names)
  | None => false
  end.

Definition _create_nested_mappings (index_name : string) (t : table)
    (sample_id_column : option string) : result (list es_call) :=
  table_name ← _table_name_from_table t ;
  let nested := _get_nested_mappings (schema t) (Some table_name) in
  if column_in sample_id_column (field_name <$> schema t) then
    let sample_mapping :=
      Mapping None (Some {[ "samples" := Mapping (Some "nested") nested ]}) in
    Ok [PutMapping index_name sample_mapping]
  else
    match nested with
    | Some n => Ok [PutMapping index_name (Mapping None (Some n))]
    | None => Ok []
    end.

Definition raised (e : option exn) : result () :=
  match e with
  | Some e => Raise e
  | None => Ok ()
  end.

(** ['SELECT * FROM `%s`' % table_name] *)
Definition select_all (table_name : string) : string :=
  "SELECT * FROM `" +:+ table_name +:+ "`".

Section index_table.
Context `{DictOrder}.

(** [read_gbq] is the table reader: from the query to the rows fetched. *)
Definition index_table (index_name : string) (read_gbq : string → DataFrame)
    (t : table) (participant_id_column : string)
    (sample_id_column : option string) (sample_file_columns : gmap string string)
    : list es_call * result () :=
  match _create_nested_mappings index_name t sample_id_column with
  | Raise e => ([], Raise e)
  | Ok calls =>
      match _table_name_from_table t with
      | Raise e => (calls, Raise e)
      | Ok table_name =>
          let df := read_gbq (select_all table_name) in
          if negb (bool_decide (participant_id_column ∈ columns df)) then
            (calls,
             Raise (ValueError ("Participant ID column " +:+ participant_id_column
                                +:+ " not found in BigQuery table " +:+ table_name)))
          else
            match sample_id_column with
            | Some sid =>
                if bool_decide (sid ∈ columns df) then
                  let '(items, e) :=
                    consume (_sample_scripts_by_id df table_name
                               participant_id_column sid sample_file_columns) in
                  (calls ++ [BulkIndexScripts index_name items], raised e)
                else
                  let '(items, e) :=
                    consume (_docs_by_id df table_name participant_id_column) in
                  (calls ++ [BulkIndexDocs index_name items], raised e)
            | None =>
                let '(items, e) :=
                  consume (_docs_by_id df table_name participant_id_column) in
                (calls ++ [BulkIndexDocs index_name items], raised e)
            end
      end
  end.

End index_table.

(** ** The samples export *)

Section samples_export.
Context `{DictOrder}.

Record entity := {
  entityType : string;
  ename : scalar;
  attributes : dict
}.

(** One turn of the loop over [sample.iteritems()]. *)
Definition export_field (export_sample : dict) (item : string * scalar) : dict :=
  let '(es_field_name, value) := item in
  let splits := split_dot es_field_name in
  if decide (length splits ≠ 4%nat) then export_sample
  else
    match splits !! 3%nat with
    | Some k => <[k := value]> export_sample
    | None => export_sample
    end.

Definition export_attributes (participant_id : string)
    (items : list (string * scalar)) : dict :=
  foldl export_field {[ "participant" := SStr participant_id ]} items.

(** [sample['sample_id']] *)
Definition dict_get (k : string) (d : dict) : result scalar :=
  match d !! k with
  | Some v => Ok v
  | None => Raise (KeyError k)
  end.

Definition export_sample_entity (participant_id : string) (sample : dict)
    : result entity :=
  sample_id ← dict_get "sample_id" sample ;
  Ok {| entityType := "sample";
        ename := sample_id;
        attributes := export_attributes participant_id (iteritems sample) |}.

(** The loop over [doc.get('samples', [])] of one hit. *)
Definition export_hit (entities : list entity) (hit : string * source)
    : result (list entity) :=
  let '(participant_id, doc) := hit in
  foldM (λ entities sample,
           e ← export_sample_entity participant_id sample ;
           Ok (entities ++ [e]))
        entities (default [] (samples doc)).

(** The list [entities] that [create_samples_json_export_file] builds from
    the hits of the scan, before it is serialised and uploaded. *)
Definition create_samples_json_export_file (hits : list (string * source))
    : result (list entity) :=
  foldM export_hit [] hits.

End samples_export.

(** The fields the export keeps: those whose name has four segments. *)
Definition four_segments (item : string * scalar) : Prop :=
  length (split_dot item.1) = 4%nat.

Global Instance four_segments_dec (item : string * scalar) : Decision (four_segments item).
Proof. unfold four_segments. apply _. Defined.

(** ** Partial updates *)

(** Modelled from the spec: the bulk helper [indexer_util.bulk_index_docs] is
    not part of [indexer.py]; section 4.2 has each document applied as a
    partial update, a merge at top level that leaves the fields it does not
    mention untouched and creates the entity when it is not there. *)
Definition partial_update (store : gmap scalar dict) (item : scalar * dict)
    : gmap scalar dict :=
  let '(id, doc) := item in
  <[id := doc ∪ default ∅ (store !! id)]> store.

(** Modelled from the spec: the documents of one bulk call, applied in the
    order the generator yields them. *)
Definition bulk_index_docs (store : gmap scalar dict)
    (docs_by_id : list (scalar * dict)) : gmap scalar dict :=
  foldl partial_update store docs_by_id.

(** What one entity's document receives from a list of documents: those for
    [id], each merged over what came before. *)
Definition merge_docs (id : scalar) (acc : dict) (docs_by_id : list (scalar * dict))
    : dict :=
  foldl (λ acc item, if decide (item.1 = id) then item.2 ∪ acc else acc)
        acc docs_by_id.

(** BigQuery column names hold no dot. *)
Fixpoint has_dot (s : string) : bool :=
  match s with
  | EmptyString => false
  | String c s' => Ascii.eqb c "."%char || has_dot s'
  end.

Definition bigquery_columns (df : DataFrame) : Prop :=
  Forall (λ r : row, map_Forall (λ k _, has_dot k = false) r) (rows df).

(** ** The samples array *)

(** The sub-entity IDs of an array, element by element. *)
Definition sample_ids (key : string) (l : list dict) : list (option scalar) :=
  (λ x : dict, x !! key) <$> l.

(** The invariant of the data model: every element carries its sub-entity ID
    and no two elements share one. *)
Definition samples_wf (key : string) (l : list dict) : Prop :=
  Forall is_Some (sample_ids key l) ∧ NoDup (sample_ids key l).

Definition source_wf (key : string) (ctx : source) : Prop :=
  match samples ctx with
  | Some l => samples_wf key l
  | None => True
  end.

(** The element of the array with sub-entity ID [s], or no field when there
    is none. *)
Definition existing_sample (key : string) (s : scalar) (l : list dict) : dict :=
  default ∅ (head (filter (λ x : dict, x !! key = Some s) l)).


(** ** Reading a table *)

(** [s.rsplit(c, 1)]: [None] when [c] does not occur in [s], else what is
    left and right of its last occurrence. *)
Fixpoint rsplit_on (c : ascii) (s : string) : option (string * string) :=
  match s with
  | EmptyString => None
  | String a s' =>
      match rsplit_on c s' with
      | Some (l, r) => Some (String a l, r)
      | None => if Ascii.eqb a c then Some ("", s') else None
      end
  end.

(** [read_table]: unpacking [table_name.rsplit('.', 2)] into three names
    needs two dots; [get_table] is the client's lookup, by project, dataset
    and table. *)
Definition read_table (get_table : string → string → string → result table)
    (table_name : string) : result table :=
  match rsplit_on "." table_name with
  | None => Raise (ValueError "need more than 1 value to unpack")
  | Some (rest, table_name) =>
      match rsplit_on "." rest with
      | None => Raise (ValueError "need more than 2 values to unpack")
      | Some (project_id, dataset_id) => get_table project_id dataset_id table_name
      end
  end.

Fixpoint has_char (c : ascii) (s : string) : bool :=
  match s with
  | EmptyString => false
  | String a s' => Ascii.eqb a c || has_char c s'
  end.

Fixpoint count_char (c : ascii) (s : string) : nat :=
  match s with
  | EmptyString => 0%nat
  | String a s' => ((if Ascii.eqb a c then 1 else 0) + count_char c s')%nat
  end.

(** ** The fields index *)

(** [prefix + '.' + name] when [prefix] is not empty. *)
Definition join_prefix (prefix name : string) : string :=
  if String.eqb prefix "" then name else prefix +:+ "." +:+ name.

(** [{'name': field_name}], with the description when the field has one. *)
Definition field_dict (field_name : string) (description : option string) : dict :=
  match description with
  | Some d =>
      if String.eqb d "" then {[ "name" := SStr field_name ]}
      else <[ "description" := SStr d ]> {[ "name" := SStr field_name ]}
  | None => {[ "name" := SStr field_name ]}
  end.

(** What [_field_docs_by_id] yields for one field: the documents of the
    sub-fields for a record, one document otherwise. *)
Fixpoint field_docs_of (id_prefix name_prefix : string) (field : SchemaField)
    {struct field} : list (string * dict) :=
  match field with
  | Field fname ftype _ descr subs =>
      let field_name := join_prefix name_prefix fname in
      let field_id := join_prefix id_prefix fname in
      if String.eqb ftype "RECORD" then
        (fix loop (l : list SchemaField) : list (string * dict) :=
           match l with
           | [] => []
           | f :: l' => field_docs_of field_id field_name f ++ loop l'
           end) subs
      else [(field_id, field_dict field_name descr)]
  end.

Fixpoint _field_docs_by_id (id_prefix name_prefix : string)
    (fields : list SchemaField) : list (string * dict) :=
  match fields with
  | [] => []
  | f :: fields' =>
      field_docs_of id_prefix name_prefix f
      ++ _field_docs_by_id id_prefix name_prefix fields'
  end.

(** The loop of [index_fields] that puts [samples.] before the prefix, once
    for every field named like the sample-ID column. *)
Definition fields_id_prefix (table_name : string) (sample_id_column : option string)
    (fields : list SchemaField) : string :=
  foldl (λ id_prefix f,
           if decide (Some (field_name f) = sample_id_column)
           then "samples." +:+ id_prefix else id_prefix)
        table_name fields.

Definition index_fields (index_name : string) (t : table)
    (sample_id_column : option string) : list es_call * result () :=
  match _table_name_from_table t with
  | Raise e => ([], Raise e)
  | Ok table_name =>
      let id_prefix := fields_id_prefix table_name sample_id_column (schema t) in
      let field_docs := _field_docs_by_id id_prefix "" (schema t) in
      ([BulkIndexDocs index_name
          ((λ item : string * dict, (SStr item.1, item.2)) <$> field_docs)],
       Ok ())
  end.

(** The fields that get a document: those that are not records, at any
    depth. *)
Fixpoint leaf_count (field : SchemaField) : nat :=
  match field with
  | Field _ ftype _ _ subs =>
      if String.eqb ftype "RECORD" then
        (fix loop (l : list SchemaField) : nat :=
           match l with
           | [] => 0%nat
           | f :: l' => (leaf_count f + loop l')%nat
           end) subs
      else 1%nat
  end.

(** A repeated record, the field itself or one below it. *)
Fixpoint has_repeated_record (field : SchemaField) : bool :=
  match field with
  | Field _ ftype fmode _ subs =>
      (String.eqb fmode "REPEATED" && String.eqb ftype "RECORD")
      || (fix loop (l : list SchemaField) : bool :=
            match l with
            | [] => false
            | f :: l' => has_repeated_record f || loop l'
            end) subs
  end.

Definition is_put_mapping (index_name : string) (c : es_call) : Prop :=
  ∃ body, c = PutMapping index_name body.

(** The entity IDs a bulk call carries, in order. *)
Definition bulk_ids (c : es_call) : list scalar :=
  match c with
  | PutMapping _ _ => []
  | BulkIndexScripts _ scripts_by_id => scripts_by_id.*1
  | BulkIndexDocs _ docs_by_id => docs_by_id.*1
  end.

Definition is_scripts (c : es_call) : bool :=
  match c with
  | BulkIndexScripts _ _ => true
  | _ => false
  end.

Definition call_index (c : es_call) : string :=
  match c with
  | PutMapping index _ => index
  | BulkIndexScripts index _ => index
  | BulkIndexDocs index _ => index
  end.

(** Every field, at any depth, has a name (BigQuery allows no empty one). *)
Fixpoint names_nonempty (field : SchemaField) : bool :=
  match field with
  | Field fname _ _ _ subs =>
      negb (String.eqb fname "")
      && (fix loop (l : list SchemaField) : bool :=
            match l with
            | [] => true
            | f :: l' => names_nonempty f && loop l'
            end) subs
  end.

(** The samples the export comes across, each with the ID of its hit, in
    the order of the scan. *)
Definition scanned_samples (hits : list (string * source)) : list (string * dict) :=
  hits ≫= λ hit, (λ sample, (hit.1, sample)) <$> default [] (samples hit.2).

(** What the rows of a table say of column [k] of entity [e]: the value in
    the last of the entity's rows where the column is not null, [acc] when
    there is none. *)
Definition column_value_from (acc : option scalar) (pid : string) (e : scalar)
    (k : string) (l : list row) : option scalar :=
  foldl (λ acc (r : row),
           if decide (dropna r !! pid = Some e) then
             match dropna r !! k with
             | Some v => Some v
             | None => acc
             end
           else acc)
        acc l.

Definition column_value (df : DataFrame) (pid : string) (e : scalar) (k : string)
    : option scalar :=
  column_value_from None pid e k (rows df).

(** The characters [lower_ascii] is [lower()] on: those below 128. *)
Fixpoint is_ascii (s : string) : bool :=
  match s with
  | EmptyString => true
  | String c s' => (N_of_ascii c <? 128)%N && is_ascii s'
  end.

(** ** The scenarios of section 8 *)

Definition weight_row : row :=
  {[ "pid" := Some (SStr "P1"); "value" := Some (SInt 70); "note" := None ]}.

Definition weight_df : DataFrame :=
  {| columns := ["pid"; "value"; "note"]; rows := [weight_row] |}.

Definition height_row : row :=
  {[ "pid" := Some (SStr "P1"); "value" := Some (SInt 180) ]}.

Definition height_df : DataFrame :=
  {| columns := ["pid"; "value"]; rows := [height_row] |}.

Definition center_row : row :=
  {[ "pid" := Some (SStr "P1"); "sid" := Some (SStr "S1");
     "center" := Some (SStr "A") ]}.

Definition center_df : DataFrame :=
  {| columns := ["pid"; "sid"; "center"]; rows := [center_row] |}.


Definition fresh_entity : source := {| fields := ∅; samples := None |}.

(** More inputs, for the edges. *)

Definition legacy_table (full_id : string) : table :=
  {| full_table_id := full_id; schema := [] |}.

(** A client that gives every table its legacy ID. *)
Definition legacy_client (project_id dataset_id name : string) : result table :=
  Ok (legacy_table (project_id +:+ ":" +:+ dataset_id +:+ "." +:+ name)).

Definition null_id_row : row :=
  {[ "pid" := None; "value" := Some (SInt 1) ]}.

Definition null_id_df : DataFrame :=
  {| columns := ["pid"; "value"]; rows := [weight_row; null_id_row; height_row] |}.

Definition duplicated_samples : list dict :=
  [ {[ "sid" := SStr "S1" ]};
    {[ "sid" := SStr "S2" ]};
    {[ "sid" := SStr "S1"; "a" := SInt 1 ]} ].

Definition nested_schema : list SchemaField :=
  [ Field "sid" "STRING" "NULLABLE" None [];
    Field "address" "RECORD" "NULLABLE" None
      [ Field "city" "STRING" "NULLABLE" (Some "City") [] ] ].

Definition exported_hits : list (string * source) :=
  [ ("P1", {| fields := ∅;
              samples := Some [ {[ "sample_id" := SStr "S1";
                                   "p.d.t.center" := SStr "A" ]} ] |});
    ("P2", {| fields := ∅; samples := None |}) ].

(** * Properties *)

(** ** Strings *)

Lemma append_inj_r (p s1 s2 : string) : p +:+ s1 = p +:+ s2 → s1 = s2.
Proof. induction p as [|c p IH]; simpl; [done|]. intros [= ?]. auto. Qed.

Global Instance scoped_inj (table_name : string) : Inj (=) (=) (scoped table_name).
Proof.
  intros k1 k2. unfold scoped. intros Heq.
  apply append_inj_r in Heq. by apply append_inj_r in Heq.
Qed.

Section generator_facts.
Context `{DictOrder}.

Lemma elem_of_iteritems {A} (m : gmap string A) k v :
  (k, v) ∈ iteritems m ↔ m !! k = Some v.
Proof. by rewrite (iteritems_perm A m), elem_of_map_to_list. Qed.

(** A dict comprehension is a left-to-right sequence of assignments. *)
Lemma foldl_insert_list_to_map (f : string → string) (l : list (string * scalar))
    (acc : dict) :
  foldl (λ acc kv, <[f kv.1 := kv.2]> acc) acc l
  = list_to_map (reverse (prod_map f id <$> l)) ∪ acc.
Proof.
  revert acc. induction l as [|[k v] l IH]; intros acc; simpl.
  - by rewrite (left_id ∅ (∪)).
  - rewrite IH, reverse_cons, list_to_map_app. simpl.
    rewrite <-(assoc_L (∪)). f_equal.
    by rewrite <-insert_union_l, (left_id ∅ (∪)).
Qed.

Lemma dict_comp_Some_inv f (d : dict) j v :
  dict_comp f d !! j = Some v → ∃ k, j = f k ∧ d !! k = Some v.
Proof.
  unfold dict_comp. rewrite foldl_insert_list_to_map, (right_id ∅ (∪)).
  intros Hj%elem_of_list_to_map_2.
  rewrite elem_of_reverse, list_elem_of_fmap in Hj.
  destruct Hj as ([k v'] & [= -> ->] & Hin).
  exists k. split; [done|]. by apply elem_of_iteritems.
Qed.

Lemma dict_comp_lookup f (d : dict) k v :
  d !! k = Some v →
  (∀ k' v', d !! k' = Some v' → f k' = f k → v' = v) →
  dict_comp f d !! f k = Some v.
Proof.
  intros Hk Huniq. unfold dict_comp.
  rewrite foldl_insert_list_to_map, (right_id ∅ (∪)).
  apply elem_of_list_to_map_1'.
  - intros y. rewrite elem_of_reverse, list_elem_of_fmap.
    intros ([k' v'] & [= Hf ->] & Hin). apply elem_of_iteritems in Hin.
    symmetry. eauto.
  - rewrite elem_of_reverse, list_elem_of_fmap. exists (k, v).
    split; [done|]. by apply elem_of_iteritems.
Qed.

Lemma dict_comp_None f (d : dict) j :
  (∀ k, j = f k → d !! k = None) → dict_comp f d !! j = None.
Proof.
  intros Hnone. destruct (dict_comp f d !! j) as [v|] eqn:Hj; [|done].
  apply dict_comp_Some_inv in Hj as (k & -> & Hk).
  by rewrite (Hnone k) in Hk.
Qed.

Lemma dict_comp_kmap f `{!Inj (=) (=) f} (d : dict) : dict_comp f d = kmap f d.
Proof.
  apply map_eq. intros j. apply option_eq. intros v.
  rewrite lookup_kmap_Some by done. split.
  - intros (k & -> & Hk)%dict_comp_Some_inv. eauto.
  - intros (k & -> & Hk). apply dict_comp_lookup; [done|].
    intros k' v' Hk' ->%(inj f). congruence.
Qed.

Lemma lookup_dropna (r : row) k : dropna r !! k = r !! k ≫= id.
Proof. unfold dropna. by rewrite lookup_omap. Qed.

(** ** The document builder *)

Lemma docs_by_id_row_ok table_name pid (r : row) id :
  r !! pid = Some (Some id) →
  _docs_by_id_row table_name pid r
  = Ok (id, kmap (scoped table_name) (delete pid (dropna r))).
Proof.
  intros Hid. unfold _docs_by_id_row, dict_del.
  rewrite lookup_dropna, Hid. simpl. by rewrite dict_comp_kmap by apply _.
Qed.

(** A row whose entity ID is null or missing stops the generator: [del]
    raises. *)
Lemma docs_by_id_row_null_id table_name pid (r : row) :
  r !! pid = None ∨ r !! pid = Some None →
  _docs_by_id_row table_name pid r = Raise (KeyError pid).
Proof.
  intros Hid. unfold _docs_by_id_row, dict_del. rewrite lookup_dropna.
  by destruct Hid as [-> | ->].
Qed.

(** C2: for a row with an entity ID, [_docs_by_id] yields the pair of that
    ID and a document in which no null or missing column is a key, the
    entity-ID column is not a field, and the fields are exactly the remaining
    non-null columns, each under its name prefixed with the table name and a
    dot, with its value. *)
Theorem docs_by_id_yields (df : DataFrame) (table_name pid : string)
    (i : nat) (r : row) (id : scalar) :
  rows df !! i = Some r →
  r !! pid = Some (Some id) →
  ∃ doc : dict,
    _docs_by_id df table_name pid !! i = Some (Ok (id, doc)) ∧
    (∀ k, r !! k = None ∨ r !! k = Some None → doc !! scoped table_name k = None) ∧
    doc !! scoped table_name pid = None ∧
    (∀ name v, doc !! name = Some v ↔
       ∃ k, name = scoped table_name k ∧ k ≠ pid ∧ r !! k = Some (Some v)).
Proof.
  intros Hi Hid. eexists. split; [|split; [|split]].
  - unfold _docs_by_id. rewrite list_lookup_fmap, Hi. simpl.
    by rewrite (docs_by_id_row_ok _ _ _ id).
  - intros k Hk. rewrite lookup_kmap by apply _.
    destruct (decide (k = pid)) as [->|Hne].
    + by rewrite lookup_delete_eq.
    + rewrite lookup_delete_ne, lookup_dropna by done. by destruct Hk as [-> | ->].
  - rewrite lookup_kmap by apply _. by rewrite lookup_delete_eq.
  - intros name v. rewrite lookup_kmap_Some by apply _. split.
    + intros (k & -> & Hk). exists k. split; [done|].
      destruct (decide (k = pid)) as [->|Hne]; [by rewrite lookup_delete_eq in Hk|].
      rewrite lookup_delete_ne, lookup_dropna in Hk by done.
      split; [done|]. destruct (r !! k) as [[?|]|]; simpl in Hk; congruence.
    + intros (k & -> & Hne & Hk). exists k. split; [done|].
      by rewrite lookup_delete_ne, lookup_dropna, Hk.
Qed.

(** ** Documents of different tables *)

Lemma append_nil_l (s : string) : "" +:+ s = s.
Proof. reflexivity. Qed.

Lemma append_cons (c : ascii) (p s : string) : String c p +:+ s = String c (p +:+ s).
Proof. reflexivity. Qed.

Lemma has_dot_scoped (p k : string) : has_dot (p +:+ String "."%char k) = true.
Proof.
  induction p as [|c p IH]; [done|].
  rewrite append_cons. simpl. by rewrite IH, orb_true_r.
Qed.

Lemma scoped_eq_inv (A B k k' : string) :
  has_dot k = false → has_dot k' = false →
  scoped A k = scoped B k' → A = B ∧ k = k'.
Proof.
  unfold scoped. revert B.
  induction A as [|a A IH]; intros [|b B] Hk Hk';
    repeat (rewrite append_nil_l || rewrite append_cons).
  - intros [= ->]. done.
  - intros [= <- ->]. by rewrite has_dot_scoped in Hk.
  - intros [= -> <-]. by rewrite has_dot_scoped in Hk'.
  - intros [= -> Heq]. destruct (IH B Hk Hk' Heq) as [-> ->]. done.
Qed.

Lemma elem_of_consume {A} (gen : list (result A)) (a : A) :
  a ∈ (consume gen).1 → Ok a ∈ gen.
Proof.
  induction gen as [|[x|e] gen IH]; simpl.
  - by intros ?%elem_of_nil.
  - destruct (consume gen) as [items e']. simpl in *.
    intros [->|Hin]%elem_of_cons; [left|right; auto].
  - by intros ?%elem_of_nil.
Qed.

(** The fields of a document yielded for a table carry that table's name. *)
Lemma docs_by_id_fields (df : DataFrame) table_name pid (item : scalar * dict) name :
  bigquery_columns df →
  item ∈ (consume (_docs_by_id df table_name pid)).1 →
  is_Some (item.2 !! name) →
  ∃ k, name = scoped table_name k ∧ has_dot k = false.
Proof.
  intros Hcols Hin%elem_of_consume [v Hv].
  unfold _docs_by_id in Hin. apply list_elem_of_fmap in Hin as (r & Hr & Hin).
  destruct (r !! pid) as [[id|]|] eqn:Hid.
  - rewrite (docs_by_id_row_ok _ _ _ id) in Hr by done. injection Hr as ->.
    simpl in Hv. apply lookup_kmap_Some in Hv as (k & -> & Hk); [|apply _].
    exists k. split; [done|].
    apply lookup_delete_Some in Hk as [_ Hk]. rewrite lookup_dropna in Hk.
    unfold bigquery_columns in Hcols. rewrite Forall_forall in Hcols.
    destruct (r !! k) as [c|] eqn:Hrk; [|done].
    by apply (Hcols r Hin k c).
  - rewrite docs_by_id_row_null_id in Hr by auto. done.
  - rewrite docs_by_id_row_null_id in Hr by auto. done.
Qed.

Lemma merge_docs_union id (acc : dict) docs :
  merge_docs id acc docs = merge_docs id ∅ docs ∪ acc.
Proof.
  unfold merge_docs. revert acc.
  induction docs as [|[i d] docs IH]; intros acc; simpl.
  - by rewrite (left_id_L ∅ (∪)).
  - rewrite IH. rewrite (IH (if decide (i = id) then d ∪ ∅ else ∅)).
    case_decide; rewrite (right_id_L ∅ (∪)); [|done].
    by rewrite (assoc_L (∪)).
Qed.

Lemma merge_docs_fields id docs name :
  is_Some (merge_docs id ∅ docs !! name) →
  ∃ item, item ∈ docs ∧ is_Some (item.2 !! name).
Proof.
  induction docs as [|[i d] docs IH] using rev_ind.
  - unfold merge_docs. simpl. rewrite lookup_empty. by intros [? ?].
  - unfold merge_docs in *. rewrite foldl_app. simpl. case_decide.
    + rewrite lookup_union_is_Some. intros [Hd|Hrest].
      * exists (i, d). split; [|done]. apply elem_of_app. right. by left.
      * destruct (IH Hrest) as (item & Hin & Hs). exists item.
        split; [|done]. apply elem_of_app. by left.
    + intros Hrest. destruct (IH Hrest) as (item & Hin & Hs). exists item.
      split; [|done]. apply elem_of_app. by left.
Qed.

Lemma merge_docs_notin id (acc : dict) docs :
  id ∉ docs.*1 → merge_docs id acc docs = acc.
Proof.
  unfold merge_docs. revert acc.
  induction docs as [|[i d] docs IH]; intros acc Hnotin; [done|].
  rewrite fmap_cons, not_elem_of_cons in Hnotin. destruct Hnotin as [Hne Hnotin].
  cbn [foldl fst snd]. rewrite decide_False by done. by apply IH.
Qed.

Lemma bulk_index_docs_lookup (store : gmap scalar dict) docs id :
  bulk_index_docs store docs !! id
  = if decide (id ∈ docs.*1)
    then Some (merge_docs id ∅ docs ∪ default ∅ (store !! id))
    else store !! id.
Proof.
  rewrite <-merge_docs_union. revert store.
  induction docs as [|[i d] docs IH]; intros store.
  - done.
  - rewrite fmap_cons. unfold bulk_index_docs, merge_docs in *.
    cbn [foldl fst snd]. rewrite IH. unfold partial_update.
    destruct (decide (i = id)) as [->|Hne].
    + rewrite lookup_insert_eq. cbn [default].
      rewrite (decide_True (P := id ∈ id :: docs.*1)) by left.
      case_decide; [done|].
      f_equal. symmetry. by apply (merge_docs_notin id).
    + rewrite lookup_insert_ne by done.
      destruct (decide (id ∈ docs.*1)) as [Hin|Hin].
      * rewrite decide_True; [done|]. by right.
      * rewrite decide_False; [done|].
        intros [?|?]%elem_of_cons; congruence.
Qed.

Lemma merge_docs_disjoint (dfA dfB : DataFrame) (A B pid : string) id :
  A ≠ B → bigquery_columns dfA → bigquery_columns dfB →
  merge_docs id ∅ (consume (_docs_by_id dfA A pid)).1
  ##ₘ merge_docs id ∅ (consume (_docs_by_id dfB B pid)).1.
Proof.
  intros Hne HA HB. apply map_disjoint_spec. intros name x y Hx Hy.
  destruct (merge_docs_fields id _ name (mk_is_Some _ _ Hx)) as (ia & Hia & Hsa).
  destruct (merge_docs_fields id _ name (mk_is_Some _ _ Hy)) as (ib & Hib & Hsb).
  destruct (docs_by_id_fields dfA A pid ia name HA Hia Hsa) as (k & -> & Hk).
  destruct (docs_by_id_fields dfB B pid ib _ HB Hib Hsb) as (k' & Heq & Hk').
  by destruct (scoped_eq_inv A B k k' Hk Hk' Heq).
Qed.


(** ** The merge-script generator *)

Lemma mark_file_column_lookup table_name (row_dict : dict) (item : string * string) name :
  mark_file_column table_name row_dict item !! name
  = if decide (contains table_name item.2 = true ∧ name = has_name item.1)
    then Some (SBool (from_option truthy false (row_dict !! item.2)))
    else row_dict !! name.
Proof.
  destruct item as [file_type col]. unfold mark_file_column. simpl.
  destruct (contains table_name col) eqn:Hc.
  - destruct (decide (name = has_name file_type)) as [->|Hne].
    + rewrite decide_True by done.
      destruct (row_dict !! col) as [v|] eqn:Hcol; simpl;
        [destruct (truthy v) eqn:Hv|]; by rewrite lookup_insert_eq.
    + rewrite decide_False by (intros [_ ?]; done).
      destruct (row_dict !! col) as [v|]; [destruct (truthy v)|];
        by rewrite lookup_insert_ne.
  - rewrite decide_False by (intros [? _]; done). done.
Qed.

(** The loop over [sample_file_columns] only adds or overwrites flags of
    pairs whose column name contains the table name. *)
Lemma mark_file_columns_fold_keep table_name (items : list (string * string))
    (row_dict : dict) name :
  (∀ item, item ∈ items → contains table_name item.2 = true → name ≠ has_name item.1) →
  foldl (mark_file_column table_name) row_dict items !! name = row_dict !! name.
Proof.
  revert row_dict. induction items as [|item items IH]; intros row_dict Hkeep; [done|].
  simpl. rewrite IH by (intros it Hin Hc; exact (Hkeep it ltac:(by right) Hc)).
  rewrite mark_file_column_lookup, decide_False; [done|].
  intros [Hc ->]. by apply (Hkeep item ltac:(by left) Hc).
Qed.

Lemma mark_file_columns_fold_dom table_name (items : list (string * string))
    (row_dict : dict) name :
  is_Some (foldl (mark_file_column table_name) row_dict items !! name) ↔
  is_Some (row_dict !! name) ∨
  ∃ item, item ∈ items ∧ contains table_name item.2 = true ∧ name = has_name item.1.
Proof.
  revert row_dict. induction items as [|item items IH]; intros row_dict; simpl.
  - split; [by left|]. intros [?|(item & ?%elem_of_nil & _)]; done.
  - rewrite IH, mark_file_column_lookup. split.
    + intros [Hs|(it & Hin & Hc & ->)].
      * case_decide as Hd; [|by left]. destruct Hd as [Hc ->].
        right. exists item. split; [left|]; done.
      * right. exists it. split; [by right|done].
    + intros [Hs|(it & [->|Hin]%elem_of_cons & Hc & ->)].
      * left. case_decide; [done|done].
      * left. rewrite decide_True by done. done.
      * right. exists it. done.
Qed.

Lemma mark_file_columns_keep table_name sfc (row_dict : dict) name :
  (∀ file_type col, sfc !! file_type = Some col →
     contains table_name col = true → name ≠ has_name file_type) →
  mark_file_columns table_name sfc row_dict !! name = row_dict !! name.
Proof.
  intros Hkeep. apply mark_file_columns_fold_keep.
  intros [file_type col] Hin%elem_of_iteritems. by apply Hkeep.
Qed.

Lemma mark_file_columns_dom table_name sfc (row_dict : dict) name :
  is_Some (mark_file_columns table_name sfc row_dict !! name) ↔
  is_Some (row_dict !! name) ∨
  ∃ file_type col, sfc !! file_type = Some col ∧
    contains table_name col = true ∧ name = has_name file_type.
Proof.
  unfold mark_file_columns. rewrite mark_file_columns_fold_dom. split.
  - intros [?|([ft col] & Hin%elem_of_iteritems & ? & ?)]; [by left|].
    right. by exists ft, col.
  - intros [?|(ft & col & Hin & ? & ?)]; [by left|].
    right. exists (ft, col). by rewrite elem_of_iteritems.
Qed.

Lemma sample_scripts_by_id_row_ok table_name pid sid sfc (r : row) id :
  r !! pid = Some (Some id) →
  _sample_scripts_by_id_row table_name pid sid sfc r
  = Ok (id, {| script_key := sid;
               lang := "painless";
               params_sample :=
                 mark_file_columns table_name sfc
                   (dict_comp (sample_key table_name sid) (delete pid (dropna r))) |}).
Proof.
  intros Hid. unfold _sample_scripts_by_id_row, dict_del.
  by rewrite lookup_dropna, Hid.
Qed.

Lemma sample_scripts_by_id_row_null_id table_name pid sid sfc (r : row) :
  r !! pid = None ∨ r !! pid = Some None →
  _sample_scripts_by_id_row table_name pid sid sfc r = Raise (KeyError pid).
Proof.
  intros Hid. unfold _sample_scripts_by_id_row, dict_del. rewrite lookup_dropna.
  by destruct Hid as [-> | ->].
Qed.

Lemma lookup_delete_dropna pid (r : row) k v :
  delete pid (dropna r) !! k = Some v ↔ k ≠ pid ∧ r !! k = Some (Some v).
Proof.
  rewrite lookup_delete_Some, lookup_dropna.
  destruct (r !! k) as [[?|]|]; simpl; split; intros [? ?]; split; congruence.
Qed.


End generator_facts.

(** ** The update script *)

Lemma scan_samples_no_match key (sample : dict) (l : list dict) i removeIdx :
  Forall (λ x : dict, is_Some (x !! key) ∧ x !! key ≠ sample !! key) l →
  scan_samples key sample l i removeIdx = Ok removeIdx.
Proof.
  revert i. induction l as [|x l IH]; intros i Hl; [done|].
  apply Forall_cons in Hl as [[[v Hv] Hne] Hl]. simpl. rewrite Hv.
  rewrite decide_False by congruence. by apply IH.
Qed.

Lemma scan_samples_last_match key (sample : dict) (l1 : list dict) x l2 v i removeIdx :
  Forall (λ y : dict, is_Some (y !! key)) l1 →
  x !! key = Some v →
  sample !! key = Some v →
  Forall (λ y : dict, is_Some (y !! key) ∧ y !! key ≠ Some v) l2 →
  scan_samples key sample (l1 ++ x :: l2) i removeIdx = Ok (i + Z.of_nat (length l1)).
Proof.
  intros Hl1 Hx Hs Hl2. revert i removeIdx.
  induction Hl1 as [|y l1 [w Hw] _ IH]; intros i removeIdx; simpl.
  - rewrite Hx, decide_True by done. rewrite Z.add_0_r.
    apply scan_samples_no_match. by rewrite Hs.
  - rewrite Hw, IH. f_equal. lia.
Qed.

Lemma last_match_split {A} (P : A → Prop) `{!∀ x, Decision (P x)} (l : list A) :
  Exists P l →
  ∃ l1 x l2, l = l1 ++ x :: l2 ∧ P x ∧ Forall (λ y, ¬ P y) l2.
Proof.
  induction l as [|a l IH]; intros Hex; [by apply Exists_nil in Hex|].
  destruct (decide (Exists P l)) as [Hl|Hl].
  - destruct (IH Hl) as (l1 & x & l2 & -> & Hx & Hl2).
    by exists (a :: l1), x, l2.
  - apply Exists_cons in Hex as [Ha|?]; [|done].
    exists [], a, l. split; [done|]. split; [done|].
    by apply not_Exists_Forall.
Qed.

(** A match: the last matching element leaves its place and the merged
    element goes to the end. *)
Lemma update_matching (key : string) (ctx : source) (sample : dict)
    (l1 : list dict) (x : dict) (l2 : list dict) (v : scalar) :
  samples ctx = Some (l1 ++ x :: l2) →
  Forall (λ y : dict, is_Some (y !! key)) (l1 ++ x :: l2) →
  sample !! key = Some v →
  x !! key = Some v →
  Forall (λ y : dict, y !! key ≠ Some v) l2 →
  UPDATE_SAMPLES_SCRIPT key ctx sample
  = Ok {| fields := fields ctx; samples := Some (l1 ++ l2 ++ [sample ∪ x]) |}.
Proof.
  intros Hctx Hkeys Hs Hx Hl2.
  apply Forall_app in Hkeys as [Hk1 Hk2]. apply Forall_cons in Hk2 as [_ Hk2].
  unfold UPDATE_SAMPLES_SCRIPT. rewrite Hctx.
  rewrite (scan_samples_last_match key sample l1 x l2 v); [|done..|].
  - simpl. rewrite decide_True by lia.
    replace (Z.to_nat (0 + Z.of_nat (length l1))) with (length l1) by lia.
    rewrite list_lookup_middle by done.
    rewrite delete_middle. by rewrite <-(assoc_L (++)).
  - rewrite Forall_forall in *. split; auto.
Qed.

(** No match: the sample is appended. *)
Lemma update_no_match (key : string) (ctx : source) (sample : dict)
    (l : list dict) (v : scalar) :
  samples ctx = Some l →
  Forall (λ y : dict, is_Some (y !! key)) l →
  sample !! key = Some v →
  Forall (λ y : dict, y !! key ≠ Some v) l →
  UPDATE_SAMPLES_SCRIPT key ctx sample
  = Ok {| fields := fields ctx; samples := Some (l ++ [sample]) |}.
Proof.
  intros Hctx Hkeys Hs Hl. unfold UPDATE_SAMPLES_SCRIPT. rewrite Hctx.
  rewrite scan_samples_no_match.
  - done.
  - rewrite Hs. rewrite Forall_forall in *. split; auto.
Qed.

(** C10: when the operation's sub-entity ID matches an element of the array,
    the script takes the last matching element out of its place and puts the
    merged element at the end; the other elements keep their order. *)
Theorem update_moves_match_to_end (key : string) (ctx : source) (sample : dict)
    (l : list dict) (v : scalar) :
  samples ctx = Some l →
  Forall (λ x : dict, is_Some (x !! key)) l →
  sample !! key = Some v →
  Exists (λ x : dict, x !! key = Some v) l →
  ∃ l1 x l2,
    l = l1 ++ x :: l2 ∧
    x !! key = Some v ∧
    Forall (λ y : dict, y !! key ≠ Some v) l2 ∧
    UPDATE_SAMPLES_SCRIPT key ctx sample
    = Ok {| fields := fields ctx; samples := Some (l1 ++ l2 ++ [sample ∪ x]) |} ∧
    last (l1 ++ l2 ++ [sample ∪ x]) = Some (sample ∪ x) ∧
    (sample ∪ x) !! key = Some v.
Proof.
  intros Hctx Hkeys Hs Hex.
  destruct (last_match_split _ l Hex) as (l1 & x & l2 & -> & Hx & Hl2).
  exists l1, x, l2. split; [done|]. split; [done|]. split; [done|].
  split; [|split].
  - by apply (update_matching key ctx sample l1 x l2 v).
  - by rewrite (assoc_L (++)), last_snoc.
  - by rewrite lookup_union_l'; [|rewrite Hs].
Qed.

(** ** Merging the operations for one sub-entity *)

Lemma filter_all {A} (P : A → Prop) `{!∀ x, Decision (P x)} (l : list A) :
  Forall P l → filter P l = l.
Proof.
  induction 1 as [|x l Hx _ IH]; [done|].
  by rewrite filter_cons_True, IH.
Qed.

Lemma filter_none {A} (P : A → Prop) `{!∀ x, Decision (P x)} (l : list A) :
  Forall (λ x, ¬ P x) l → filter P l = [].
Proof.
  induction 1 as [|x l Hx _ IH]; [done|].
  by rewrite filter_cons_False.
Qed.

(** One step on a well-formed array, whether the ID is there or not. *)
Lemma update_wf_step (key : string) (ctx : source) (sample : dict)
    (l : list dict) (s : scalar) :
  samples ctx = Some l →
  samples_wf key l →
  sample !! key = Some s →
  UPDATE_SAMPLES_SCRIPT key ctx sample
  = Ok {| fields := fields ctx;
          samples := Some (filter (λ x : dict, x !! key ≠ Some s) l
                           ++ [sample ∪ existing_sample key s l]) |}.
Proof.
  intros Hctx [Hkeys Hnodup] Hs. unfold sample_ids in *.
  rewrite Forall_fmap in Hkeys.
  destruct (decide (Exists (λ x : dict, x !! key = Some s) l)) as [Hex|Hex].
  - destruct (last_match_split _ l Hex) as (l1 & x & l2 & -> & Hx & Hl2).
    rewrite (update_matching key ctx sample l1 x l2 s) by done.
    assert (Hl1 : Forall (λ y : dict, y !! key ≠ Some s) l1).
    { rewrite fmap_app, fmap_cons, Hx in Hnodup.
      apply NoDup_app in Hnodup as (_ & Hdisj & _).
      apply Forall_forall. intros y Hy Hys. apply (Hdisj (Some s)).
      - rewrite <-Hys. by apply list_elem_of_fmap_2.
      - left. }
    unfold existing_sample. rewrite !filter_app.
    rewrite (filter_cons_False _ x) by (intros ?; done).
    rewrite (filter_cons_True (λ x : dict, x !! key = Some s) x) by done.
    rewrite (filter_all _ l1), (filter_all _ l2) by done.
    rewrite (filter_none (λ x : dict, x !! key = Some s) l1) by done.
    simpl. by rewrite <-(assoc_L (++)).
  - apply not_Exists_Forall in Hex; [|apply _].
    rewrite (update_no_match key ctx sample l s) by done.
    unfold existing_sample.
    rewrite (filter_all _ l), (filter_none (λ x : dict, x !! key = Some s) l) by done.
    simpl. by rewrite (right_id_L ∅ (∪)).
Qed.

Lemma update_wf_preserved (key : string) (sample existing : dict)
    (l : list dict) (s : scalar) :
  samples_wf key l →
  sample !! key = Some s →
  samples_wf key (filter (λ x : dict, x !! key ≠ Some s) l ++ [sample ∪ existing]).
Proof.
  intros [Hkeys Hnodup] Hs. unfold samples_wf, sample_ids in *.
  rewrite fmap_app. simpl.
  rewrite (lookup_union_Some_l sample existing key s Hs).
  assert (Hnotin : Some s ∉ (λ x : dict, x !! key)
                     <$> filter (λ x : dict, x !! key ≠ Some s) l).
  { intros (y & Hy & [Hne _]%list_elem_of_filter)%list_elem_of_fmap. done. }
  split.
  - apply Forall_app. split; [|by repeat constructor].
    rewrite Forall_fmap in *. rewrite Forall_forall in *.
    intros y [_ Hy]%list_elem_of_filter. by apply Hkeys.
  - apply NoDup_app. split; [|split].
    + clear Hnotin Hkeys. induction l as [|y l IH]; [constructor|].
      rewrite fmap_cons in Hnodup. apply NoDup_cons in Hnodup as [Hy Hnodup].
      rewrite filter_cons. case_decide; [|by apply IH].
      rewrite fmap_cons. apply NoDup_cons. split; [|by apply IH].
      intros (z & Hz & [_ Hin]%list_elem_of_filter)%list_elem_of_fmap.
      apply Hy. rewrite Hz. by apply list_elem_of_fmap_2.
    + intros o Ho ->%list_elem_of_singleton. done.
    + apply NoDup_singleton.
Qed.

Lemma filter_other_ids_snoc (key : string) (s : scalar) (l : list dict) (m : dict) :
  m !! key = Some s →
  filter (λ x : dict, x !! key ≠ Some s)
    (filter (λ x : dict, x !! key ≠ Some s) l ++ [m])
  = filter (λ x : dict, x !! key ≠ Some s) l.
Proof.
  intros Hm. rewrite filter_app, (filter_cons_False _ m) by (intros ?; done).
  rewrite filter_nil, (right_id_L [] (++)). apply filter_all.
  apply Forall_forall. by intros x [? _]%list_elem_of_filter.
Qed.

Lemma existing_sample_snoc (key : string) (s : scalar) (l : list dict) (m : dict) :
  m !! key = Some s →
  existing_sample key s (filter (λ x : dict, x !! key ≠ Some s) l ++ [m]) = m.
Proof.
  intros Hm. unfold existing_sample.
  rewrite filter_app, (filter_cons_True _ m) by done.
  rewrite (filter_none (λ x : dict, x !! key = Some s)); [done|].
  apply Forall_forall. by intros x [? _]%list_elem_of_filter.
Qed.







Lemma prefix_append (p s : string) : String.prefix p (p +:+ s) = true.
Proof.
  induction p as [|c p IH]; [by destruct s|].
  rewrite append_cons. simpl. by destruct (ascii_dec c c).
Qed.

Lemma has_dot_scoped_name (table_name k : string) :
  has_dot (scoped table_name k) = true.
Proof. apply has_dot_scoped. Qed.

Lemma has_name_prefix (file_type : string) :
  String.prefix "_has_" (has_name file_type) = true.
Proof. apply prefix_append. Qed.


Section merge_operations.
Context `{DictOrder}.



End merge_operations.

(** ** Derived file flags *)

Section file_flags.
Context `{DictOrder}.

Lemma iteritems_singleton {A} (k : string) (v : A) :
  iteritems ({[ k := v ]} : gmap string A) = [(k, v)].
Proof.
  apply Permutation_singleton_r.
  by rewrite iteritems_perm, map_to_list_singleton.
Qed.

(** C5, at a table whose name is contained in the qualified name of a column
    of another table: the operation built from a row of [p.d.samples] carries
    the flag of the column [p.d.samples_extra.vcf_path], with the value
    false, and running it after the owning table's operation turns the flag
    from true to false. *)
Theorem has_flag_set_by_other_table :
  let sfc : gmap string string := {[ "VCF" := "p.d.samples_extra.vcf_path" ]} in
  let r : row := {[ "participant_id" := Some (SStr "P1");
                    "sample_id" := Some (SStr "S1") ]} in
  let indexed : dict := {[ "sample_id" := SStr "S1";
                           "p.d.samples_extra.vcf_path" := SStr "gs://b/S1.vcf";
                           "_has_vcf" := SBool true ]} in
  String.prefix "p.d.samples." "p.d.samples_extra.vcf_path" = false ∧
  ∃ op : script,
    _sample_scripts_by_id_row "p.d.samples" "participant_id" "sample_id" sfc r
    = Ok (SStr "P1", op) ∧
    params_sample op = {[ "sample_id" := SStr "S1"; "_has_vcf" := SBool false ]} ∧
    run_script {| fields := ∅; samples := Some [indexed] |} op
    = Ok {| fields := ∅;
            samples := Some [ <[ "_has_vcf" := SBool false ]> indexed ] |}.
Proof.
  intros sfc r indexed. split; [reflexivity|].
  eexists. split; [by apply sample_scripts_by_id_row_ok|].
  assert (Hrow : delete "participant_id" (dropna r)
                 = ({[ "sample_id" := SStr "S1" ]} : dict)) by by vm_compute.
  assert (Hop : mark_file_columns "p.d.samples" sfc
                  (dict_comp (sample_key "p.d.samples" "sample_id")
                     (delete "participant_id" (dropna r)))
                = {[ "sample_id" := SStr "S1"; "_has_vcf" := SBool false ]}).
  { rewrite Hrow. unfold dict_comp, mark_file_columns, sfc.
    rewrite !iteritems_singleton. by vm_compute. }
  cbn [params_sample]. split; [exact Hop|].
  unfold run_script. cbn [script_key params_sample]. rewrite Hop.
  by vm_compute.
Qed.

End file_flags.

(** ** Indexing a table *)

Section orchestration.
Context `{DictOrder}.

Lemma create_nested_mappings_calls index_name (t : table) sid calls :
  _create_nested_mappings index_name t sid = Ok calls →
  Forall (λ c, is_bulk c = false) calls.
Proof.
  unfold _create_nested_mappings.
  destruct (_table_name_from_table t) as [table_name|e]; simpl; [|done].
  destruct (column_in sid (field_name <$> schema t)).
  - intros [= <-]. by repeat constructor.
  - destruct (_get_nested_mappings (schema t) (Some table_name));
      intros [= <-]; by repeat constructor.
Qed.

(** C6: when the rows fetched for the table lack the entity-ID column,
    [index_table] raises a [ValueError] and has made no bulk call, neither
    of documents nor of scripts. *)
Theorem index_table_missing_participant_id (index_name : string)
    (read_gbq : string → DataFrame) (t : table) (pid : string)
    (sid : option string) (sfc : gmap string string) :
  (∀ table_name, _table_name_from_table t = Ok table_name →
     pid ∉ columns (read_gbq (select_all table_name))) →
  ∃ msg,
    (index_table index_name read_gbq t pid sid sfc).2 = Raise (ValueError msg) ∧
    Forall (λ c, is_bulk c = false) (index_table index_name read_gbq t pid sid sfc).1.
Proof.
  intros Hmissing. unfold index_table.
  destruct (_create_nested_mappings index_name t sid) as [calls|e] eqn:Hcalls.
  - apply create_nested_mappings_calls in Hcalls.
    destruct (_table_name_from_table t) as [table_name|e] eqn:Hname.
    + rewrite bool_decide_eq_false_2 by by apply Hmissing. simpl. eauto.
    + unfold _table_name_from_table in Hname.
      destruct (rsplit_colon (full_table_id t)) as [[? ?]|]; [done|].
      injection Hname as <-. simpl. eauto.
  - unfold _create_nested_mappings in Hcalls.
    unfold _table_name_from_table in Hcalls.
    destruct (rsplit_colon (full_table_id t)) as [[project_id dataset_table_id]|];
      simpl in Hcalls.
    + destruct (column_in sid _); [done|].
      by destruct (_get_nested_mappings _ _).
    + injection Hcalls as <-. simpl. eauto.
Qed.

End orchestration.

(** ** Nested mappings *)

Lemma nested_mappings_step_eq (prefix : option string) (f : SchemaField)
    (nested : gmap string mapping) :
  nested_mappings_step prefix f nested
  = let name := prefixed prefix (field_name f) in
    let nested' :=
      if is_repeated_record f
      then <[name := Mapping (Some "nested") None]> nested else nested in
    match _get_nested_mappings (field_sub_fields f) None with
    | Some inner => <[name := set_properties (nested' !! name) inner]> nested'
    | None => nested'
    end.
Proof.
  destruct f as [fname ftype fmode descr subs]. simpl.
  unfold _get_nested_mappings.
  assert (Hloop : ∀ acc,
    (fix loop (l : list SchemaField) (acc : gmap string mapping) :=
       match l with
       | [] => acc
       | f :: l' => loop l' (nested_mappings_step None f acc)
       end) subs acc = nested_mappings_loop None subs acc).
  { induction subs as [|g subs IH]; intros acc; [done|]. simpl. apply IH. }
  by rewrite Hloop.
Qed.

Lemma nested_mappings_step_other prefix f (nested : gmap string mapping) name :
  name ≠ prefixed prefix (field_name f) →
  nested_mappings_step prefix f nested !! name = nested !! name.
Proof.
  intros Hne. rewrite nested_mappings_step_eq. cbv zeta.
  destruct (_get_nested_mappings _ _), (is_repeated_record f);
    by rewrite ?lookup_insert_ne by done.
Qed.

Lemma nested_mappings_step_fresh prefix f (nested : gmap string mapping) :
  nested !! prefixed prefix (field_name f) = None →
  nested_mappings_step prefix f nested !! prefixed prefix (field_name f)
  = field_entry f.
Proof.
  intros Hfresh. rewrite nested_mappings_step_eq. cbv zeta. unfold field_entry.
  destruct (_get_nested_mappings _ _), (is_repeated_record f);
    by rewrite ?lookup_insert_eq, ?Hfresh.
Qed.

Lemma nested_mappings_loop_other prefix schema (nested : gmap string mapping) name :
  (∀ f, f ∈ schema → name ≠ prefixed prefix (field_name f)) →
  nested_mappings_loop prefix schema nested !! name = nested !! name.
Proof.
  revert nested. induction schema as [|f schema IH]; intros nested Hne; [done|].
  simpl. rewrite IH by (intros g Hg; apply Hne; by right).
  apply nested_mappings_step_other. apply Hne. by left.
Qed.

Global Instance prefixed_inj (prefix : option string) : Inj (=) (=) (prefixed prefix).
Proof.
  intros n1 n2. unfold prefixed. destruct prefix as [p|]; [|done].
  destruct (String.eqb p ""); [done|].
  intros Heq. apply append_inj_r in Heq. by apply append_inj_r in Heq.
Qed.

Lemma nested_mappings_loop_entry prefix schema (nested : gmap string mapping) f :
  NoDup (field_name <$> schema) →
  (∀ g, g ∈ schema → nested !! prefixed prefix (field_name g) = None) →
  f ∈ schema →
  nested_mappings_loop prefix schema nested !! prefixed prefix (field_name f)
  = field_entry f.
Proof.
  revert nested. induction schema as [|g schema IH]; intros nested Hnodup Hfresh Hin.
  - by apply elem_of_nil in Hin.
  - rewrite fmap_cons in Hnodup. apply NoDup_cons in Hnodup as [Hg Hnodup]. simpl.
    apply elem_of_cons in Hin as [->|Hin].
    + rewrite nested_mappings_loop_other.
      * apply nested_mappings_step_fresh. apply Hfresh. by left.
      * intros h Hh Heq%(inj _). apply Hg. rewrite Heq.
        by apply list_elem_of_fmap_2.
    + apply IH; [done| |done]. intros h Hh.
      rewrite nested_mappings_step_other; [apply Hfresh; by right|].
      intros Heq%(inj _). apply Hg. rewrite <-Heq. by apply list_elem_of_fmap_2.
Qed.

(** C7, as the code has it: a field of the schema is keyed by its name after
    the prefix and a dot (by its name alone when there is no prefix, which is
    how the sub-fields are keyed, inside [properties]); its entry has the
    type nested exactly when it is a repeated record and [properties] exactly
    when the mapping of its sub-fields is not empty; a field that is neither
    has no entry, and the result is [None] when no field has one. *)
Theorem get_nested_mappings_entries (schema : list SchemaField) (prefix : option string) :
  NoDup (field_name <$> schema) →
  match _get_nested_mappings schema prefix with
  | Some nested =>
      (∀ f, f ∈ schema → nested !! prefixed prefix (field_name f) = field_entry f) ∧
      (∀ name, (∀ f, f ∈ schema → name ≠ prefixed prefix (field_name f)) →
               nested !! name = None) ∧
      (∃ f, f ∈ schema ∧ is_Some (field_entry f))
  | None => ∀ f, f ∈ schema → field_entry f = None
  end.
Proof.
  intros Hnodup. unfold _get_nested_mappings, nonempty_or_none.
  set (nested := nested_mappings_loop prefix schema ∅).
  assert (Hentry : ∀ f, f ∈ schema →
            nested !! prefixed prefix (field_name f) = field_entry f).
  { intros f Hf. by apply nested_mappings_loop_entry. }
  assert (Hother : ∀ name, (∀ f, f ∈ schema → name ≠ prefixed prefix (field_name f)) →
            nested !! name = None).
  { intros name Hname. unfold nested. by rewrite nested_mappings_loop_other. }
  case_decide as Hempty.
  - intros f Hf. by rewrite <-Hentry, Hempty.
  - split; [done|]. split; [done|].
    apply map_choose in Hempty as (name & e & Hname).
    destruct (decide (Exists (λ f, name = prefixed prefix (field_name f)) schema))
      as [Hex|Hex].
    + apply Exists_exists in Hex as (f & Hf & ->). exists f. split; [done|].
      by rewrite <-Hentry, Hname.
    + rewrite Hother in Hname; [done|]. intros f Hf ->. apply Hex.
      apply Exists_exists. by exists f.
Qed.

Lemma no_entry_in_leaf_map (k name : string) (e : mapping) :
  name ≠ k →
  ¬ has_entry ({[ k := Mapping (Some "nested") None ]} : gmap string mapping) name e.
Proof.
  intros Hne Hentry. inversion Hentry as [m n e' Hhere|m k' t ps n e' Hk' _]; subst.
  - apply lookup_singleton_Some in Hhere as [? _]. congruence.
  - apply lookup_singleton_Some in Hk' as [_ ?]. congruence.
Qed.

(** C7 as stated fails below the top level: a repeated record [b] inside
    [a], under the prefix [t], is keyed [b] inside the [properties] of
    [t.a], and no entry is keyed [t.a.b] or [a.b]; and a record whose only
    sub-field is a plain record gets no [properties] entry at all. *)
Lemma nested_child_keyed_by_bare_name :
  (∃ nested,
     _get_nested_mappings
       [Field "a" "RECORD" "REPEATED" None [Field "b" "RECORD" "REPEATED" None []]]
       (Some "t") = Some nested ∧
     is_repeated_record (Field "b" "RECORD" "REPEATED" None []) = true ∧
     has_entry nested "b" (Mapping (Some "nested") None) ∧
     (∀ e, ¬ has_entry nested "t.a.b" e) ∧
     (∀ e, ¬ has_entry nested "a.b" e)) ∧
  _get_nested_mappings
    [Field "z" "RECORD" "NULLABLE" None
       [Field "y" "RECORD" "NULLABLE" None [Field "c" "STRING" "NULLABLE" None []]]]
    (Some "t") = None.
Proof.
  split; [|by vm_compute].
  exists {[ "t.a" := Mapping (Some "nested")
                       (Some {[ "b" := Mapping (Some "nested") None ]}) ]}.
  split; [by vm_compute|]. split; [done|]. split; [|split].
  - eapply has_entry_under; [apply lookup_singleton_eq|].
    apply has_entry_here, lookup_singleton_eq.
  - intros e Hentry.
    inversion Hentry as [m n e' Hhere|m k t ps n e' Hk Hsub]; subst.
    + by apply lookup_singleton_Some in Hhere as [? _].
    + apply lookup_singleton_Some in Hk as [_ [= <- <-]].
      by apply no_entry_in_leaf_map in Hsub.
  - intros e Hentry.
    inversion Hentry as [m n e' Hhere|m k t ps n e' Hk Hsub]; subst.
    + by apply lookup_singleton_Some in Hhere as [? _].
    + apply lookup_singleton_Some in Hk as [_ [= <- <-]].
      by apply no_entry_in_leaf_map in Hsub.
Qed.

(** ** The samples export *)

Lemma export_field_skip (export_sample : dict) (item : string * scalar) :
  ¬ four_segments item → export_field export_sample item = export_sample.
Proof.
  destruct item as [name value]. unfold four_segments, export_field. simpl.
  intros Hlen. by rewrite decide_True.
Qed.

Lemma export_field_keep (export_sample : dict) (name : string) (value : scalar) :
  four_segments (name, value) →
  ∃ a b c k, split_dot name = [a; b; c; k] ∧
    export_field export_sample (name, value) = <[k := value]> export_sample.
Proof.
  unfold four_segments, export_field. simpl. intros Hlen.
  destruct (split_dot name) as [|a [|b [|c [|k [|? ?]]]]] eqn:Hsplit; try done.
  exists a, b, c, k. split; [done|]. by rewrite decide_False by (intros ?; done).
Qed.

Lemma export_fields_filter (export_sample : dict) (items : list (string * scalar)) :
  foldl export_field export_sample items
  = foldl export_field export_sample (filter four_segments items).
Proof.
  revert export_sample. induction items as [|item items IH]; intros export_sample;
    [done|].
  rewrite filter_cons. simpl. case_decide as Hfour.
  - simpl. apply IH.
  - rewrite export_field_skip by done. apply IH.
Qed.

Lemma export_fields_origin (export_sample : dict) (items : list (string * scalar))
    (k : string) (v : scalar) :
  foldl export_field export_sample items !! k = Some v →
  export_sample !! k = Some v ∨
  ∃ name a b c, (name, v) ∈ items ∧ split_dot name = [a; b; c; k].
Proof.
  revert export_sample. induction items as [|[name value] items IH];
    intros export_sample; cbn [foldl]; [by left|].
  intros [Hk|(n & a & b & c & Hin & Hsplit)]%IH.
  - destruct (decide (four_segments (name, value))) as [Hfour|Hfour].
    + destruct (export_field_keep export_sample name value Hfour)
        as (a & b & c & k' & Hsplit & Heq).
      rewrite Heq in Hk. apply lookup_insert_Some in Hk as [[<- <-]|[_ Hk]].
      * right. exists name, a, b, c. split; [left|done].
      * by left.
    + rewrite export_field_skip in Hk by done. by left.
  - right. exists n, a, b, c. split; [by right|done].
Qed.

Lemma export_fields_present (export_sample : dict) (items : list (string * scalar))
    (name : string) (v : scalar) a b c k :
  (name, v) ∈ items → split_dot name = [a; b; c; k] →
  is_Some (foldl export_field export_sample items !! k).
Proof.
  intros Hin Hsplit. revert export_sample.
  induction items as [|item items IH]; intros export_sample;
    [by apply elem_of_nil in Hin|].
  assert (Hkeep : ∀ (d : dict) its, is_Some (d !! k) →
            is_Some (foldl export_field d its !! k)).
  { clear. intros d its. revert d. induction its as [|[n w] its IH]; intros d Hd;
      [done|].
    simpl. apply IH. unfold export_field.
    case_decide; [done|]. destruct (split_dot n !! 3%nat) as [k'|]; [|done].
    rewrite lookup_insert_is_Some. destruct (decide (k' = k)); auto. }
  apply elem_of_cons in Hin as [<-|Hin]; simpl; [|by apply IH].
  apply Hkeep. unfold export_field. rewrite Hsplit. simpl.
  by rewrite lookup_insert_eq.
Qed.

Section export.
Context `{DictOrder}.

Lemma export_sample_entity_ok (participant_id : string) (sample : dict) (v : scalar) :
  sample !! "sample_id" = Some v →
  export_sample_entity participant_id sample
  = Ok {| entityType := "sample"; ename := v;
          attributes := export_attributes participant_id (iteritems sample) |}.
Proof. intros Hv. unfold export_sample_entity, dict_get. by rewrite Hv. Qed.

Lemma export_sample_entity_missing (participant_id : string) (sample : dict) :
  sample !! "sample_id" = None →
  export_sample_entity participant_id sample = Raise (KeyError "sample_id").
Proof. intros Hv. unfold export_sample_entity, dict_get. by rewrite Hv. Qed.

Lemma export_sample_entity_cases (participant_id : string) (sample : dict) :
  (∃ e, export_sample_entity participant_id sample = Ok e) ∨
  export_sample_entity participant_id sample = Raise (KeyError "sample_id").
Proof.
  destruct (sample !! "sample_id") as [v|] eqn:Hv.
  - left. eexists. by apply export_sample_entity_ok.
  - right. by apply export_sample_entity_missing.
Qed.

(** The loop over the samples of a hit either appends one entity per sample
    or stops with the [KeyError] of a sample without [sample_id]. *)
Lemma export_hit_cases (entities : list entity) (participant_id : string)
    (doc : source) :
  (∃ new, export_hit entities (participant_id, doc) = Ok (entities ++ new) ∧
          Forall2 (λ sample e, export_sample_entity participant_id sample = Ok e)
                  (default [] (samples doc)) new) ∨
  (export_hit entities (participant_id, doc) = Raise (KeyError "sample_id") ∧
   Exists (λ sample : dict, sample !! "sample_id" = None) (default [] (samples doc))).
Proof.
  unfold export_hit. generalize (default [] (samples doc)). intros l.
  revert entities. induction l as [|sample l IH]; intros entities.
  - left. exists []. split; [by rewrite (right_id_L [] (++))|constructor].
  - simpl. destruct (sample !! "sample_id") as [v|] eqn:Hv.
    + rewrite (export_sample_entity_ok _ _ v) by done. simpl.
      destruct (IH (entities ++ [{| entityType := "sample"; ename := v;
                                    attributes := export_attributes participant_id
                                                    (iteritems sample) |}]))
        as [(new & Heq & Hall)|[Heq Hex]].
      * left. eexists (_ :: new). rewrite Heq. split.
        -- by rewrite <-(assoc_L (++)).
        -- constructor; [by apply export_sample_entity_ok|done].
      * right. split; [done|]. by right.
    + rewrite export_sample_entity_missing by done. right. split; [done|]. by left.
Qed.

Lemma export_hits_cases (entities : list entity) (hits : list (string * source)) :
  (∃ new, foldM export_hit entities hits = Ok (entities ++ new) ∧
     (∀ pid doc sample, (pid, doc) ∈ hits → sample ∈ default [] (samples doc) →
        ∃ e, e ∈ new ∧ export_sample_entity pid sample = Ok e) ∧
     (∀ e, e ∈ new → ∃ pid doc sample, (pid, doc) ∈ hits ∧
        sample ∈ default [] (samples doc) ∧ export_sample_entity pid sample = Ok e)) ∨
  (foldM export_hit entities hits = Raise (KeyError "sample_id") ∧
   ∃ pid doc sample, (pid, doc) ∈ hits ∧ sample ∈ default [] (samples doc) ∧
     sample !! "sample_id" = None).
Proof.
  revert entities. induction hits as [|[pid doc] hits IH]; intros entities.
  - left. exists []. split; [by rewrite (right_id_L [] (++))|]. split.
    + by intros ? ? ? ?%elem_of_nil.
    + by intros ? ?%elem_of_nil.
  - change (foldM export_hit entities ((pid, doc) :: hits))
      with (export_hit entities (pid, doc) ≫= λ es, foldM export_hit es hits).
    destruct (export_hit_cases entities pid doc) as [(new & -> & Hall)|[-> Hex]].
    + change (Ok ?a ≫= ?k) with (k a). cbv beta.
      destruct (IH (entities ++ new)) as [(new' & -> & Hin & Hout)|[-> Hex]].
      * left. exists (new ++ new'). split; [by rewrite (assoc_L (++))|]. split.
        -- intros pid' doc' sample [[= -> ->]|Hhit]%elem_of_cons Hsample.
           ++ apply list_elem_of_lookup in Hsample as [i Hi].
              destruct (Forall2_lookup_l _ _ _ _ _ Hall Hi) as (e & He & Hok).
              exists e. split; [|done]. apply elem_of_app. left.
              by apply list_elem_of_lookup_2 in He.
           ++ destruct (Hin pid' doc' sample Hhit Hsample) as (e & He & Hok).
              exists e. split; [|done]. apply elem_of_app. by right.
        -- intros e [He|He]%elem_of_app.
           ++ apply list_elem_of_lookup in He as [i Hi].
              destruct (Forall2_lookup_r _ _ _ _ _ Hall Hi) as (sample & Hs & Hok).
              exists pid, doc, sample. split; [left|]. split; [|done].
              by apply list_elem_of_lookup_2 in Hs.
           ++ destruct (Hout e He) as (pid' & doc' & sample & Hhit & Hs & Hok).
              exists pid', doc', sample. split; [by right|done].
      * right. split; [done|].
        destruct Hex as (pid' & doc' & sample & Hhit & Hs & Hnone).
        exists pid', doc', sample. split; [by right|done].
    + right. split; [done|]. apply Exists_exists in Hex as (sample & Hs & Hnone).
      exists pid, doc, sample. split; [left|done].
Qed.

(** What the export keeps of one sample. *)
Lemma export_sample_entity_attributes (participant_id : string) (sample : dict)
    (e : entity) :
  export_sample_entity participant_id sample = Ok e →
  attributes e
  = export_attributes participant_id (filter four_segments (iteritems sample)) ∧
  (∀ k v, attributes e !! k = Some v →
     (k = "participant" ∧ v = SStr participant_id) ∨
     ∃ name a b c, sample !! name = Some v ∧ split_dot name = [a; b; c; k]) ∧
  (∀ name v a b c k, sample !! name = Some v → split_dot name = [a; b; c; k] →
     is_Some (attributes e !! k)).
Proof.
  unfold export_sample_entity, dict_get.
  destruct (sample !! "sample_id") as [sid|]; [|done]. intros [= <-]. simpl.
  unfold export_attributes. split; [apply export_fields_filter|]. split.
  - intros k v [Hk|(name & a & b & c & Hin & Hsplit)]%export_fields_origin.
    + left. by apply lookup_singleton_Some in Hk as [<- <-].
    + right. exists name, a, b, c. by rewrite <-elem_of_iteritems.
  - intros name v a b c k Hname Hsplit.
    apply (export_fields_present _ _ name v a b c k); [|done].
    by apply elem_of_iteritems.
Qed.

(** C8: when every sample carries [sample_id], the export has one record
    per sample; the attributes of a record are the participant and, for each
    field of the sample whose name has exactly four segments, its fourth
    segment with the field's value; fields with another number of segments
    add nothing. *)
Theorem export_attributes_four_segments (hits : list (string * source)) :
  Forall (λ hit : string * source,
            Forall (λ sample : dict, is_Some (sample !! "sample_id"))
                   (default [] (samples hit.2))) hits →
  ∃ entities,
    create_samples_json_export_file hits = Ok entities ∧
    (∀ pid doc sample, (pid, doc) ∈ hits → sample ∈ default [] (samples doc) →
       ∃ e, e ∈ entities ∧ export_sample_entity pid sample = Ok e) ∧
    (∀ e, e ∈ entities →
       ∃ pid doc sample, (pid, doc) ∈ hits ∧ sample ∈ default [] (samples doc) ∧
         export_sample_entity pid sample = Ok e ∧
         attributes e
         = export_attributes pid (filter four_segments (iteritems sample)) ∧
         (∀ k v, attributes e !! k = Some v →
            (k = "participant" ∧ v = SStr pid) ∨
            ∃ name a b c, sample !! name = Some v ∧ split_dot name = [a; b; c; k]) ∧
         (∀ name v a b c k, sample !! name = Some v →
            split_dot name = [a; b; c; k] → is_Some (attributes e !! k))).
Proof.
  intros Hids. unfold create_samples_json_export_file.
  destruct (export_hits_cases [] hits) as [(new & Heq & Hin & Hout)|[_ Hex]].
  - exists new. split; [done|]. split; [done|].
    intros e He. destruct (Hout e He) as (pid & doc & sample & Hhit & Hs & Hok).
    exists pid, doc, sample. split; [done|]. split; [done|]. split; [done|].
    by apply export_sample_entity_attributes.
  - destruct Hex as (pid & doc & sample & Hhit & Hs & Hnone).
    rewrite Forall_forall in Hids. specialize (Hids _ Hhit). simpl in Hids.
    rewrite Forall_forall in Hids. specialize (Hids _ Hs).
    rewrite Hnone in Hids. by destruct Hids.
Qed.

(** C9: the export reads the identity of a sample under the name
    [sample_id], whatever the configured column is: one sample without that
    key among the hits and the export raises a [KeyError] and returns no
    record. *)
Theorem export_missing_sample_id (hits : list (string * source))
    (pid : string) (doc : source) (sample : dict) :
  (pid, doc) ∈ hits →
  sample ∈ default [] (samples doc) →
  sample !! "sample_id" = None →
  create_samples_json_export_file hits = Raise (KeyError "sample_id").
Proof.
  intros Hhit Hs Hnone. unfold create_samples_json_export_file.
  destruct (export_hits_cases [] hits) as [(new & _ & Hin & _)|[Heq _]]; [|done].
  destruct (Hin pid doc sample Hhit Hs) as (e & _ & Hok).
  by rewrite export_sample_entity_missing in Hok.
Qed.

End export.

(** ** The scenarios, through the theorems *)

Lemma docs_by_id_yields_witness :
  rows weight_df !! 0%nat = Some weight_row ∧
  weight_row !! "pid" = Some (Some (SStr "P1")) ∧
  ∃ doc : dict,
    _docs_by_id (H := sorted_order) weight_df "proj.ds.weight" "pid" !! 0%nat
    = Some (Ok (SStr "P1", doc)) ∧
    doc !! "proj.ds.weight.value" = Some (SInt 70) ∧
    doc !! "proj.ds.weight.note" = None ∧
    doc !! "proj.ds.weight.pid" = None.
Proof.
  split; [reflexivity|]. split; [reflexivity|].
  destruct (docs_by_id_yields (H := sorted_order) weight_df "proj.ds.weight" "pid"
              0 weight_row (SStr "P1") eq_refl eq_refl)
    as (doc & Hdoc & Hnull & Hid & Hfields).
  exists doc. split; [exact Hdoc|]. split; [|split].
  - apply Hfields. exists "value". split; [reflexivity|].
    split; [discriminate|reflexivity].
  - exact (Hnull "note" (or_intror eq_refl)).
  - exact Hid.
Defined.




Lemma index_table_missing_participant_id_witness :
  (∀ table_name,
     _table_name_from_table {| full_table_id := "proj:ds.weight"; schema := [] |}
     = Ok table_name →
     "pid" ∉ columns ((λ _, {| columns := ["value"]; rows := [] |})
                        (select_all table_name))) ∧
  ∃ msg,
    (index_table (H := sorted_order) "idx"
       (λ _, {| columns := ["value"]; rows := [] |})
       {| full_table_id := "proj:ds.weight"; schema := [] |} "pid" None ∅).2
    = Raise (ValueError msg) ∧
    Forall (λ c, is_bulk c = false)
      (index_table (H := sorted_order) "idx"
         (λ _, {| columns := ["value"]; rows := [] |})
         {| full_table_id := "proj:ds.weight"; schema := [] |} "pid" None ∅).1.
Proof.
  assert (Hmissing : ∀ table_name,
     _table_name_from_table {| full_table_id := "proj:ds.weight"; schema := [] |}
     = Ok table_name →
     "pid" ∉ columns ((λ _, {| columns := ["value"]; rows := [] |})
                        (select_all table_name))).
  { intros table_name _. simpl. apply (bool_decide_unpack _). vm_compute. exact I. }
  split; [exact Hmissing|].
  exact (index_table_missing_participant_id (H := sorted_order) "idx"
           (λ _, {| columns := ["value"]; rows := [] |})
           {| full_table_id := "proj:ds.weight"; schema := [] |} "pid" None ∅
           Hmissing).
Defined.

Lemma get_nested_mappings_entries_witness :
  NoDup (field_name <$>
           [Field "a" "RECORD" "REPEATED" None
              [Field "b" "RECORD" "REPEATED" None []]]) ∧
  ∃ nested,
    _get_nested_mappings
      [Field "a" "RECORD" "REPEATED" None [Field "b" "RECORD" "REPEATED" None []]]
      (Some "t") = Some nested ∧
    nested !! "t.a"
    = Some (Mapping (Some "nested")
              (Some {[ "b" := Mapping (Some "nested") None ]})).
Proof.
  assert (Hnodup : NoDup (field_name <$>
            [Field "a" "RECORD" "REPEATED" None
               [Field "b" "RECORD" "REPEATED" None []]]))
    by (apply (bool_decide_unpack _); vm_compute; exact I).
  split; [exact Hnodup|].
  pose proof (get_nested_mappings_entries
                [Field "a" "RECORD" "REPEATED" None
                   [Field "b" "RECORD" "REPEATED" None []]]
                (Some "t") Hnodup) as Hentries.
  assert (Hnested : _get_nested_mappings
            [Field "a" "RECORD" "REPEATED" None [Field "b" "RECORD" "REPEATED" None []]]
            (Some "t")
          = Some {[ "t.a" := Mapping (Some "nested")
                               (Some {[ "b" := Mapping (Some "nested") None ]}) ]})
    by (vm_compute; reflexivity).
  rewrite Hnested in Hentries. destruct Hentries as (Hentry & _ & _).
  eexists. split; [exact Hnested|].
  etrans; [exact (Hentry _ ltac:(left))|]. vm_compute. reflexivity.
Defined.

Lemma export_attributes_four_segments_witness :
  Forall (λ hit : string * source,
            Forall (λ sample : dict, is_Some (sample !! "sample_id"))
                   (default [] (samples hit.2)))
    [("P1", {| fields := ∅;
               samples := Some [ {[ "sample_id" := SStr "S1";
                                    "p.d.t.center" := SStr "A";
                                    "d.t.center" := SStr "B";
                                    "t.center" := SStr "C";
                                    "_has_vcf" := SBool true ]} ] |})] ∧
  ∃ entities,
    create_samples_json_export_file (H := sorted_order)
      [("P1", {| fields := ∅;
                 samples := Some [ {[ "sample_id" := SStr "S1";
                                      "p.d.t.center" := SStr "A";
                                      "d.t.center" := SStr "B";
                                      "t.center" := SStr "C";
                                      "_has_vcf" := SBool true ]} ] |})]
    = Ok entities ∧
    attributes <$> entities
    = [ {[ "participant" := SStr "P1"; "center" := SStr "A" ]} ].
Proof.
  assert (Hids : Forall (λ hit : string * source,
            Forall (λ sample : dict, is_Some (sample !! "sample_id"))
                   (default [] (samples hit.2)))
    [("P1", {| fields := ∅;
               samples := Some [ {[ "sample_id" := SStr "S1";
                                    "p.d.t.center" := SStr "A";
                                    "d.t.center" := SStr "B";
                                    "t.center" := SStr "C";
                                    "_has_vcf" := SBool true ]} ] |})]).
  { repeat constructor. exists (SStr "S1"). reflexivity. }
  split; [exact Hids|].
  destruct (export_attributes_four_segments (H := sorted_order) _ Hids)
    as (entities & Hexport & _).
  exists entities. split; [exact Hexport|].
  vm_compute in Hexport. injection Hexport as <-. vm_compute. reflexivity.
Defined.

Lemma export_missing_sample_id_witness :
  ("P1", {| fields := ∅; samples := Some [ {[ "sid" := SStr "S1" ]} ] |})
    ∈ [("P1", {| fields := ∅; samples := Some [ ({[ "sid" := SStr "S1" ]} : dict) ] |})] ∧
  ({[ "sid" := SStr "S1" ]} : dict)
    ∈ default [] (samples {| fields := ∅; samples := Some [ {[ "sid" := SStr "S1" ]} ] |}) ∧
  ({[ "sid" := SStr "S1" ]} : dict) !! "sample_id" = None ∧
  create_samples_json_export_file (H := sorted_order)
    [("P1", {| fields := ∅; samples := Some [ {[ "sid" := SStr "S1" ]} ] |})]
  = Raise (KeyError "sample_id").
Proof.
  assert (Hhit : ("P1", {| fields := ∅; samples := Some [ {[ "sid" := SStr "S1" ]} ] |})
    ∈ [("P1", {| fields := ∅;
                 samples := Some [ ({[ "sid" := SStr "S1" ]} : dict) ] |})])
    by left.
  assert (Hs : ({[ "sid" := SStr "S1" ]} : dict)
    ∈ default [] (samples {| fields := ∅;
                             samples := Some [ {[ "sid" := SStr "S1" ]} ] |}))
    by left.
  split; [exact Hhit|]. split; [exact Hs|]. split; [reflexivity|].
  exact (export_missing_sample_id (H := sorted_order) _ _ _ _ Hhit Hs eq_refl).
Defined.

Lemma update_moves_match_to_end_witness :
  samples {| fields := ∅;
             samples := Some [ {[ "sid" := SStr "S1"; "a" := SInt 1 ]};
                               {[ "sid" := SStr "S2" ]} ] |}
  = Some [ {[ "sid" := SStr "S1"; "a" := SInt 1 ]}; {[ "sid" := SStr "S2" ]} ] ∧
  Forall (λ x : dict, is_Some (x !! "sid"))
    [ {[ "sid" := SStr "S1"; "a" := SInt 1 ]}; {[ "sid" := SStr "S2" ]} ] ∧
  ({[ "sid" := SStr "S1"; "b" := SInt 2 ]} : dict) !! "sid" = Some (SStr "S1") ∧
  Exists (λ x : dict, x !! "sid" = Some (SStr "S1"))
    [ {[ "sid" := SStr "S1"; "a" := SInt 1 ]}; {[ "sid" := SStr "S2" ]} ] ∧
  ∃ l1 x l2,
    [ ({[ "sid" := SStr "S1"; "a" := SInt 1 ]} : dict); {[ "sid" := SStr "S2" ]} ]
    = l1 ++ x :: l2 ∧
    UPDATE_SAMPLES_SCRIPT "sid"
      {| fields := ∅;
         samples := Some [ {[ "sid" := SStr "S1"; "a" := SInt 1 ]};
                           {[ "sid" := SStr "S2" ]} ] |}
      {[ "sid" := SStr "S1"; "b" := SInt 2 ]}
    = Ok {| fields := ∅;
            samples := Some (l1 ++ l2 ++ [ {[ "sid" := SStr "S1"; "b" := SInt 2 ]} ∪ x ]) |}.
Proof.
  assert (Hkeys : Forall (λ x : dict, is_Some (x !! "sid"))
    [ {[ "sid" := SStr "S1"; "a" := SInt 1 ]}; {[ "sid" := SStr "S2" ]} ]).
  { repeat constructor; eexists; reflexivity. }
  assert (Hex : Exists (λ x : dict, x !! "sid" = Some (SStr "S1"))
    [ {[ "sid" := SStr "S1"; "a" := SInt 1 ]}; {[ "sid" := SStr "S2" ]} ]).
  { left. reflexivity. }
  assert (Hs : ({[ "sid" := SStr "S1"; "b" := SInt 2 ]} : dict) !! "sid"
               = Some (SStr "S1")) by reflexivity.
  split; [reflexivity|]. split; [exact Hkeys|]. split; [exact Hs|].
  split; [exact Hex|].
  destruct (update_moves_match_to_end "sid"
              {| fields := ∅;
                 samples := Some [ {[ "sid" := SStr "S1"; "a" := SInt 1 ]};
                                   {[ "sid" := SStr "S2" ]} ] |}
              {[ "sid" := SStr "S1"; "b" := SInt 2 ]}
              _ (SStr "S1") eq_refl Hkeys Hs Hex)
    as (l1 & x & l2 & Hsplit & _ & _ & Hrun & _).
  exists l1, x, l2. split; [exact Hsplit|exact Hrun].
Defined.

(** ** Table names *)

Lemma rsplit_on_None (c : ascii) (s : string) :
  rsplit_on c s = None ↔ has_char c s = false.
Proof.
  induction s as [|a s IH]; simpl; [done|].
  destruct (rsplit_on c s) as [[l r]|].
  - split; [done|]. intros [_ Hs]%orb_false_iff. by apply IH in Hs.
  - destruct (Ascii.eqb a c); simpl; [done|]. by rewrite <-IH.
Qed.

Lemma rsplit_on_Some (c : ascii) (s l r : string) :
  rsplit_on c s = Some (l, r) ↔ s = l +:+ String c r ∧ has_char c r = false.
Proof.
  split.
  - revert l. induction s as [|a s IH]; intros l; simpl; [done|].
    destruct (rsplit_on c s) as [[l' r']|] eqn:Hs.
    + intros [= <- <-]. destruct (IH l' eq_refl) as [-> Hr]. done.
    + destruct (Ascii.eqb a c) eqn:Hac; [|done].
      intros [= <- <-]. apply Ascii.eqb_eq in Hac as ->.
      split; [done|]. by apply rsplit_on_None.
  - intros [-> Hr]. induction l as [|a l IH].
    + rewrite append_nil_l. simpl.
      apply rsplit_on_None in Hr. by rewrite Hr, Ascii.eqb_refl.
    + rewrite append_cons. simpl. by rewrite IH.
Qed.

Lemma rsplit_colon_eq (s : string) : rsplit_colon s = rsplit_on ":" s.
Proof. induction s as [|a s IH]; simpl; [done|]. by rewrite IH. Qed.

Lemma count_char_0 (c : ascii) (s : string) :
  count_char c s = 0%nat ↔ has_char c s = false.
Proof.
  induction s as [|a s IH]; simpl; [done|].
  destruct (Ascii.eqb a c); simpl; [done|]. done.
Qed.

Lemma count_char_app (c : ascii) (s1 s2 : string) :
  count_char c (s1 +:+ s2) = (count_char c s1 + count_char c s2)%nat.
Proof.
  induction s1 as [|a s1 IH]; [done|].
  rewrite append_cons. simpl. rewrite IH. lia.
Qed.

Lemma append_assoc (s1 s2 s3 : string) :
  (s1 +:+ s2) +:+ s3 = s1 +:+ (s2 +:+ s3).
Proof. induction s1 as [|a s1 IH]; [done|]. rewrite !append_cons. by rewrite IH. Qed.

Lemma table_name_from_table_iff (t : table) (table_name : string) :
  _table_name_from_table t = Ok table_name ↔
  ∃ p r, full_table_id t = p +:+ String ":"%char r ∧ has_char ":" r = false ∧
         table_name = p +:+ "." +:+ r.
Proof.
  unfold _table_name_from_table. rewrite rsplit_colon_eq.
  destruct (rsplit_on ":" (full_table_id t)) as [[p r]|] eqn:Hsplit.
  - apply rsplit_on_Some in Hsplit as [Hid Hr]. split.
    + intros [= <-]. by exists p, r.
    + intros (p' & r' & Hid' & Hr' & ->). f_equal.
      assert (Hsome : rsplit_on ":" (full_table_id t) = Some (p', r'))
        by by apply rsplit_on_Some.
      assert (Hsome' : rsplit_on ":" (full_table_id t) = Some (p, r))
        by by apply rsplit_on_Some.
      congruence.
  - split; [done|]. intros (p & r & Hid & Hr & _).
    assert (Hsome : rsplit_on ":" (full_table_id t) = Some (p, r))
      by by apply rsplit_on_Some.
    congruence.
Qed.

(** X1: [_table_name_from_table] succeeds exactly on an ID of the form
    [p:r] with no colon in [r], and then gives [p.r]: only the last colon is
    replaced, a project ID may hold colons. *)
Theorem table_name_from_table_last_colon (t : table) (table_name : string) :
  _table_name_from_table t = Ok table_name ↔
  ∃ p r, full_table_id t = p +:+ String ":"%char r ∧ has_char ":" r = false ∧
         table_name = p +:+ "." +:+ r.
Proof. apply table_name_from_table_iff. Qed.

(** X2: [_table_name_from_table] raises a [ValueError] exactly when the ID
    holds no colon. *)
Theorem table_name_from_table_no_colon (t : table) :
  (∃ msg, _table_name_from_table t = Raise (ValueError msg)) ↔
  has_char ":" (full_table_id t) = false.
Proof.
  unfold _table_name_from_table. rewrite rsplit_colon_eq, <-rsplit_on_None.
  destruct (rsplit_on ":" (full_table_id t)) as [[p r]|].
  - split; [by intros [? ?]|done].
  - split; [done|]. eauto.
Qed.

(** X3: [read_table] on a name with at least two dots splits it at its last
    two dots, whatever dots the project ID holds, and looks that table up. *)
Theorem read_table_last_two_dots
    (get_table : string → string → string → result table) (table_name : string) :
  (2 ≤ count_char "." table_name)%nat →
  ∃ project_id dataset_id name,
    table_name = project_id +:+ "." +:+ dataset_id +:+ "." +:+ name ∧
    has_char "." dataset_id = false ∧
    has_char "." name = false ∧
    read_table get_table table_name = get_table project_id dataset_id name.
Proof.
  intros Hcount. unfold read_table.
  destruct (rsplit_on "." table_name) as [[rest name]|] eqn:Hsplit.
  - apply rsplit_on_Some in Hsplit as [-> Hname].
    rewrite count_char_app in Hcount. simpl in Hcount.
    apply count_char_0 in Hname as Hname0. rewrite Hname0 in Hcount.
    destruct (rsplit_on "." rest) as [[project_id dataset_id]|] eqn:Hrest.
    + apply rsplit_on_Some in Hrest as [-> Hdataset].
      exists project_id, dataset_id, name. split; [|done].
      by rewrite append_assoc.
    + apply rsplit_on_None, count_char_0 in Hrest. lia.
  - apply rsplit_on_None, count_char_0 in Hsplit. lia.
Qed.

(** X4: [read_table] on a name with fewer than two dots raises a
    [ValueError] and looks no table up. *)
Theorem read_table_too_few_dots
    (get_table : string → string → string → result table) (table_name : string) :
  (count_char "." table_name < 2)%nat →
  ∃ msg, read_table get_table table_name = Raise (ValueError msg).
Proof.
  intros Hcount. unfold read_table.
  destruct (rsplit_on "." table_name) as [[rest name]|] eqn:Hsplit; [|eauto].
  apply rsplit_on_Some in Hsplit as [-> Hname].
  rewrite count_char_app in Hcount. simpl in Hcount.
  destruct (rsplit_on "." rest) as [[project_id dataset_id]|] eqn:Hrest; [|eauto].
  apply rsplit_on_Some in Hrest as [-> _].
  rewrite count_char_app in Hcount. simpl in Hcount. lia.
Qed.

(** X5: a configured name [p.d.t], read with [read_table] from a client that
    gives the table its legacy ID [p:d.t], comes back from
    [_table_name_from_table] unchanged. *)
Theorem read_table_name_round_trip
    (get_table : string → string → string → result table)
    (project_id dataset_id name : string) (t : table) :
  has_char "." dataset_id = false →
  has_char "." name = false →
  has_char ":" dataset_id = false →
  has_char ":" name = false →
  get_table project_id dataset_id name = Ok t →
  full_table_id t = project_id +:+ ":" +:+ dataset_id +:+ "." +:+ name →
  read_table get_table (project_id +:+ "." +:+ dataset_id +:+ "." +:+ name) = Ok t ∧
  _table_name_from_table t
  = Ok (project_id +:+ "." +:+ dataset_id +:+ "." +:+ name).
Proof.
  intros Hd Hn Hdc Hnc Hget Hid. split.
  - unfold read_table.
    assert (H1 : rsplit_on "." (project_id +:+ "." +:+ dataset_id +:+ "." +:+ name)
                 = Some (project_id +:+ "." +:+ dataset_id, name)).
    { apply rsplit_on_Some. split; [|done]. by rewrite append_assoc. }
    rewrite H1.
    assert (H2 : rsplit_on "." (project_id +:+ "." +:+ dataset_id)
                 = Some (project_id, dataset_id)) by by apply rsplit_on_Some.
    by rewrite H2.
  - apply table_name_from_table_iff. exists project_id, (dataset_id +:+ "." +:+ name).
    split; [done|]. split; [|done].
    clear -Hdc Hnc. induction dataset_id as [|a d IH].
    + done.
    + rewrite append_cons. simpl in *. apply orb_false_iff in Hdc as [-> Hdc].
      simpl. by apply IH.
Qed.

(** ** Which tables need a mapping *)

Lemma SchemaField_nested_ind (P : SchemaField → Prop) :
  (∀ fname ftype fmode descr subs,
     Forall P subs → P (Field fname ftype fmode descr subs)) →
  ∀ f, P f.
Proof.
  intros Hstep. fix IH 1. intros [fname ftype fmode descr subs].
  apply Hstep. induction subs as [|g subs IHsubs]; constructor; [apply IH|done].
Qed.

Lemma has_repeated_record_eq (f : SchemaField) :
  has_repeated_record f
  = is_repeated_record f || existsb has_repeated_record (field_sub_fields f).
Proof.
  by destruct f as [fname ftype fmode descr subs].
Qed.

Lemma nested_mappings_step_empty prefix f (nested : gmap string mapping) :
  nested_mappings_step prefix f nested = ∅ ↔
  nested = ∅ ∧ is_repeated_record f = false ∧
  _get_nested_mappings (field_sub_fields f) None = None.
Proof.
  rewrite nested_mappings_step_eq. cbv zeta.
  destruct (_get_nested_mappings _ _) as [inner|], (is_repeated_record f); split.
  - intros Hempty. by apply insert_non_empty in Hempty.
  - by intros (_ & ? & ?).
  - intros Hempty. by apply insert_non_empty in Hempty.
  - by intros (_ & _ & ?).
  - intros Hempty. by apply insert_non_empty in Hempty.
  - by intros (_ & ? & _).
  - by intros ->.
  - by intros (-> & _ & _).
Qed.

Lemma nested_mappings_loop_empty prefix schema (nested : gmap string mapping) :
  nested_mappings_loop prefix schema nested = ∅ ↔
  nested = ∅ ∧
  Forall (λ f, is_repeated_record f = false ∧
               _get_nested_mappings (field_sub_fields f) None = None) schema.
Proof.
  revert nested. induction schema as [|f schema IH]; intros nested; simpl.
  - split; [by intros ->|by intros [-> _]].
  - rewrite IH, nested_mappings_step_empty, Forall_cons. tauto.
Qed.

Lemma get_nested_mappings_None_fields (schema : list SchemaField) (prefix : option string) :
  _get_nested_mappings schema prefix = None ↔
  Forall (λ f, is_repeated_record f = false ∧
               _get_nested_mappings (field_sub_fields f) None = None) schema.
Proof.
  unfold _get_nested_mappings at 1. unfold nonempty_or_none.
  case_decide as Hempty.
  - apply nested_mappings_loop_empty in Hempty as [_ Hall]. done.
  - split; [done|]. intros Hall. exfalso. apply Hempty.
    by apply nested_mappings_loop_empty.
Qed.

Lemma existsb_false_Forall {A} (f : A → bool) (l : list A) :
  existsb f l = false ↔ Forall (λ x, f x = false) l.
Proof.
  induction l as [|x l IH]; simpl; [by split; [constructor|]|].
  rewrite orb_false_iff, Forall_cons, IH. done.
Qed.

Lemma no_entry_iff_no_repeated_record (f : SchemaField) :
  is_repeated_record f = false ∧
  _get_nested_mappings (field_sub_fields f) None = None ↔
  has_repeated_record f = false.
Proof.
  induction f as [fname ftype fmode descr subs IHsubs] using SchemaField_nested_ind.
  rewrite has_repeated_record_eq, orb_false_iff.
  rewrite get_nested_mappings_None_fields, existsb_false_Forall.
  cbn [field_sub_fields].
  assert (Hsubs : Forall (λ g, is_repeated_record g = false ∧
                     _get_nested_mappings (field_sub_fields g) None = None) subs
                  ↔ Forall (λ g, has_repeated_record g = false) subs).
  { clear -IHsubs. induction IHsubs as [|g subs Hg _ IH]; [done|].
    rewrite !Forall_cons, Hg, IH. done. }
  by rewrite Hsubs.
Qed.

Lemma get_nested_mappings_None_iff (schema : list SchemaField) (prefix : option string) :
  _get_nested_mappings schema prefix = None ↔
  existsb has_repeated_record schema = false.
Proof.
  rewrite get_nested_mappings_None_fields, existsb_false_Forall.
  induction schema as [|f schema IH]; [done|].
  by rewrite !Forall_cons, no_entry_iff_no_repeated_record, IH.
Qed.

(** X6: [_get_nested_mappings] returns [None] exactly when no field of the
    schema, at any depth, is a repeated record; the prefix plays no part. *)
Theorem get_nested_mappings_none_iff_no_repeated_record
    (schema : list SchemaField) (prefix : option string) :
  _get_nested_mappings schema prefix = None ↔
  existsb has_repeated_record schema = false.
Proof. apply get_nested_mappings_None_iff. Qed.

(** X7: for a table whose ID has a colon, [_create_nested_mappings] makes at
    most one call, a [put_mapping] on the index, and makes none exactly when
    the schema has no field named like the sample-ID column and no repeated
    record at any depth. *)
Theorem create_nested_mappings_calls_iff (index_name : string) (t : table)
    (sample_id_column : option string) (table_name : string) :
  _table_name_from_table t = Ok table_name →
  ∃ calls,
    _create_nested_mappings index_name t sample_id_column = Ok calls ∧
    (length calls ≤ 1)%nat ∧
    Forall (is_put_mapping index_name) calls ∧
    (calls = [] ↔
       column_in sample_id_column (field_name <$> schema t) = false ∧
       existsb has_repeated_record (schema t) = false).
Proof.
  intros Hname. unfold _create_nested_mappings. rewrite Hname. simpl.
  destruct (column_in sample_id_column (field_name <$> schema t)).
  - eexists. split; [done|]. split; [simpl; lia|]. split.
    + repeat constructor. by eexists.
    + split; [done|]. by intros [? _].
  - destruct (_get_nested_mappings (schema t) (Some table_name)) as [nested|] eqn:Hn.
    + eexists. split; [done|]. split; [simpl; lia|]. split.
      * repeat constructor. by eexists.
      * split; [done|].
        intros [_ Hnone%(get_nested_mappings_None_iff _ (Some table_name))].
        congruence.
    + exists []. split; [done|]. split; [simpl; lia|]. split; [constructor|].
      split; [|done]. intros _. split; [done|].
      by apply (get_nested_mappings_None_iff _ (Some table_name)).
Qed.

(** ** One bulk call per table *)

Lemma consume_fmap_ok {A B} (f : A → result B) (l : list A) (bs : list B) :
  Forall2 (λ x b, f x = Ok b) l bs → consume (f <$> l) = (bs, None).
Proof.
  induction 1 as [|x b l bs Hx _ IH]; [done|].
  rewrite fmap_cons. simpl. by rewrite Hx, IH.
Qed.

Lemma consume_fmap_raise {A B} (f : A → result B) (good : list A) (bad : A)
    (rest : list A) (bs : list B) (e : exn) :
  Forall2 (λ x b, f x = Ok b) good bs →
  f bad = Raise e →
  consume (f <$> (good ++ bad :: rest)) = (bs, Some e).
Proof.
  intros Hgood Hbad. induction Hgood as [|x b l bs Hx _ IH].
  - rewrite app_nil_l, fmap_cons. simpl. by rewrite Hbad.
  - rewrite <-app_comm_cons, fmap_cons. simpl. by rewrite Hx, IH.
Qed.

Lemma create_nested_mappings_calls_ok (index_name : string) (t : table)
    (sample_id_column : option string) (table_name : string) :
  _table_name_from_table t = Ok table_name →
  ∃ calls, _create_nested_mappings index_name t sample_id_column = Ok calls ∧
           Forall (λ c, is_bulk c = false) calls.
Proof.
  intros Hname. unfold _create_nested_mappings. rewrite Hname. simpl.
  destruct (column_in _ _); [|destruct (_get_nested_mappings _ _)];
    eexists; (split; [done|]); by repeat constructor.
Qed.

Section bulk_calls.
Context `{DictOrder}.

Lemma docs_by_id_rows_ok table_name pid (l : list row) :
  Forall (λ r : row, ∃ id, r !! pid = Some (Some id)) l →
  ∃ items, Forall2 (λ r item, _docs_by_id_row table_name pid r = Ok item) l items ∧
           Forall2 (λ (r : row) id, r !! pid = Some (Some id)) l items.*1.
Proof.
  induction 1 as [|r l [id Hid] _ (items & Hitems & Hids)].
  - exists []. split; constructor.
  - eexists ((id, _) :: items). split.
    + constructor; [by apply docs_by_id_row_ok|done].
    + rewrite fmap_cons. by constructor.
Qed.

Lemma sample_scripts_by_id_rows_ok table_name pid sid sfc (l : list row) :
  Forall (λ r : row, ∃ id, r !! pid = Some (Some id)) l →
  ∃ items,
    Forall2 (λ r item, _sample_scripts_by_id_row table_name pid sid sfc r = Ok item)
      l items ∧
    Forall2 (λ (r : row) id, r !! pid = Some (Some id)) l items.*1.
Proof.
  induction 1 as [|r l [id Hid] _ (items & Hitems & Hids)].
  - exists []. split; constructor.
  - eexists ((id, _) :: items). split.
    + constructor; [by apply sample_scripts_by_id_row_ok|done].
    + rewrite fmap_cons. by constructor.
Qed.

(** What [index_table] does once the entity-ID column is there: the calls
    of [_create_nested_mappings], then one bulk call with what the generator
    yields before it raises. *)
Lemma index_table_calls index_name read_gbq (t : table) pid sid sfc table_name
    mapping_calls :
  _table_name_from_table t = Ok table_name →
  _create_nested_mappings index_name t sid = Ok mapping_calls →
  pid ∈ columns (read_gbq (select_all table_name)) →
  index_table index_name read_gbq t pid sid sfc
  = let df := read_gbq (select_all table_name) in
    match sid with
    | Some s =>
        if bool_decide (s ∈ columns df) then
          (mapping_calls
           ++ [BulkIndexScripts index_name
                 (consume (_sample_scripts_by_id df table_name pid s sfc)).1],
           raised (consume (_sample_scripts_by_id df table_name pid s sfc)).2)
        else
          (mapping_calls
           ++ [BulkIndexDocs index_name (consume (_docs_by_id df table_name pid)).1],
           raised (consume (_docs_by_id df table_name pid)).2)
    | None =>
        (mapping_calls
         ++ [BulkIndexDocs index_name (consume (_docs_by_id df table_name pid)).1],
         raised (consume (_docs_by_id df table_name pid)).2)
    end.
Proof.
  intros Hname Hcalls Hpid. unfold index_table. rewrite Hcalls, Hname.
  rewrite bool_decide_eq_true_2 by done. cbn [negb]. cbv zeta.
  destruct sid as [s|]; [case_bool_decide|];
    by destruct (consume _) as [items e].
Qed.

(** X8: when the fetched rows have the entity-ID column and every row has an
    entity ID, [index_table] returns normally after the mapping calls and
    exactly one bulk call, made last, on the index; the call carries one item
    per row, in row order, under the row's entity ID, and is a call of
    scripts exactly when the sample-ID column is among the fetched columns. *)
Theorem index_table_one_bulk_call (index_name : string)
    (read_gbq : string → DataFrame) (t : table) (pid : string)
    (sid : option string) (sfc : gmap string string) (table_name : string) :
  _table_name_from_table t = Ok table_name →
  pid ∈ columns (read_gbq (select_all table_name)) →
  Forall (λ r : row, ∃ id, r !! pid = Some (Some id))
    (rows (read_gbq (select_all table_name))) →
  ∃ mapping_calls bulk,
    index_table index_name read_gbq t pid sid sfc = (mapping_calls ++ [bulk], Ok ()) ∧
    _create_nested_mappings index_name t sid = Ok mapping_calls ∧
    Forall (λ c, is_bulk c = false) mapping_calls ∧
    is_bulk bulk = true ∧
    call_index bulk = index_name ∧
    is_scripts bulk = column_in sid (columns (read_gbq (select_all table_name))) ∧
    Forall2 (λ (r : row) id, r !! pid = Some (Some id))
      (rows (read_gbq (select_all table_name))) (bulk_ids bulk).
Proof.
  intros Hname Hpid Hrows.
  destruct (create_nested_mappings_calls_ok index_name t sid table_name Hname)
    as (mapping_calls & Hcalls & Hmap).
  exists mapping_calls.
  rewrite (index_table_calls _ _ _ _ _ _ table_name mapping_calls) by done.
  cbv zeta.
  destruct (docs_by_id_rows_ok table_name pid _ Hrows) as (docs & Hdocs & Hdids).
  assert (Hcd : consume (_docs_by_id (read_gbq (select_all table_name)) table_name pid)
                = (docs, None)) by by apply consume_fmap_ok.
  destruct sid as [s|]; [case_bool_decide as Hs|].
  - destruct (sample_scripts_by_id_rows_ok table_name pid s sfc _ Hrows)
      as (ops & Hops & Hoids).
    assert (Hcs : consume (_sample_scripts_by_id (read_gbq (select_all table_name))
                             table_name pid s sfc) = (ops, None))
      by by apply consume_fmap_ok.
    rewrite Hcs. eexists. split; [done|]. simpl.
    by rewrite bool_decide_eq_true_2.
  - rewrite Hcd. eexists. split; [done|]. simpl.
    by rewrite bool_decide_eq_false_2.
  - rewrite Hcd. eexists. split; [done|]. done.
Qed.

(** X9: a row whose entity ID is null or missing stops [index_table] with a
    [KeyError] on the entity-ID column; the bulk call has been made with the
    items of the rows before it, and of no row after it. *)
Theorem index_table_null_id_row (index_name : string)
    (read_gbq : string → DataFrame) (t : table) (pid : string)
    (sid : option string) (sfc : gmap string string) (table_name : string)
    (good : list row) (bad : row) (rest : list row) :
  _table_name_from_table t = Ok table_name →
  pid ∈ columns (read_gbq (select_all table_name)) →
  rows (read_gbq (select_all table_name)) = good ++ bad :: rest →
  Forall (λ r : row, ∃ id, r !! pid = Some (Some id)) good →
  bad !! pid = None ∨ bad !! pid = Some None →
  ∃ mapping_calls bulk,
    index_table index_name read_gbq t pid sid sfc
    = (mapping_calls ++ [bulk], Raise (KeyError pid)) ∧
    Forall (λ c, is_bulk c = false) mapping_calls ∧
    is_bulk bulk = true ∧
    Forall2 (λ (r : row) id, r !! pid = Some (Some id)) good (bulk_ids bulk).
Proof.
  intros Hname Hpid Hrows Hgood Hbad.
  destruct (create_nested_mappings_calls_ok index_name t sid table_name Hname)
    as (mapping_calls & Hcalls & Hmap).
  exists mapping_calls.
  rewrite (index_table_calls _ _ _ _ _ _ table_name mapping_calls) by done.
  cbv zeta.
  destruct (docs_by_id_rows_ok table_name pid _ Hgood) as (docs & Hdocs & Hdids).
  assert (Hcd : consume (_docs_by_id (read_gbq (select_all table_name)) table_name pid)
                = (docs, Some (KeyError pid))).
  { unfold _docs_by_id. rewrite Hrows.
    apply consume_fmap_raise; [done|by apply docs_by_id_row_null_id]. }
  destruct sid as [s|]; [case_bool_decide as Hs|].
  - destruct (sample_scripts_by_id_rows_ok table_name pid s sfc _ Hgood)
      as (ops & Hops & Hoids).
    assert (Hcs : consume (_sample_scripts_by_id (read_gbq (select_all table_name))
                             table_name pid s sfc) = (ops, Some (KeyError pid))).
    { unfold _sample_scripts_by_id. rewrite Hrows.
      apply consume_fmap_raise; [done|by apply sample_scripts_by_id_row_null_id]. }
    rewrite Hcs. eexists. split; [done|]. done.
  - rewrite Hcd. eexists. split; [done|]. done.
  - rewrite Hcd. eexists. split; [done|]. done.
Qed.

End bulk_calls.

(** ** The update script at its edges *)

Lemma scan_samples_missing_key key (sample : dict) (l : list dict) i removeIdx :
  Exists (λ x : dict, x !! key = None) l →
  scan_samples key sample l i removeIdx = Raise NullPointerException.
Proof.
  intros Hex. revert i removeIdx.
  induction Hex as [x l Hx|x l _ IH]; intros i removeIdx; simpl.
  - by rewrite Hx.
  - destruct (x !! key); [apply IH|done].
Qed.

(** X10: when the array holds an element without the key, the script throws
    a null pointer exception, whatever the sample is, matching or not. *)
Theorem update_element_without_key (key : string) (ctx : source) (sample : dict)
    (l : list dict) :
  samples ctx = Some l →
  Exists (λ x : dict, x !! key = None) l →
  UPDATE_SAMPLES_SCRIPT key ctx sample = Raise NullPointerException.
Proof.
  intros Hctx Hex. unfold UPDATE_SAMPLES_SCRIPT. rewrite Hctx.
  by rewrite scan_samples_missing_key.
Qed.

(** X11: a sample without the key (a row whose sample ID is null) is never
    merged: it is appended as a new element, and from then on every run of
    the script on that entity throws. *)
Theorem update_sample_without_key (key : string) (ctx : source) (sample : dict) :
  sample !! key = None →
  Forall (λ x : dict, is_Some (x !! key)) (default [] (samples ctx)) →
  ∃ ctx',
    UPDATE_SAMPLES_SCRIPT key ctx sample = Ok ctx' ∧
    samples ctx' = Some (default [] (samples ctx) ++ [sample]) ∧
    ∀ sample', UPDATE_SAMPLES_SCRIPT key ctx' sample' = Raise NullPointerException.
Proof.
  intros Hs Hkeys.
  assert (Hthrows : ∀ f l sample',
            UPDATE_SAMPLES_SCRIPT key {| fields := f; samples := Some (l ++ [sample]) |}
              sample' = Raise NullPointerException).
  { intros f l sample'. unfold UPDATE_SAMPLES_SCRIPT. simpl.
    rewrite scan_samples_missing_key; [done|].
    apply Exists_app. right. by left. }
  unfold UPDATE_SAMPLES_SCRIPT at 1.
  destruct (samples ctx) as [l|] eqn:Hctx; simpl in *.
  - rewrite scan_samples_no_match.
    + simpl. eexists. split; [done|]. split; [done|]. apply Hthrows.
    + rewrite Hs. eapply Forall_impl; [exact Hkeys|].
      intros x [v Hx]. split; [by exists v|]. by rewrite Hx.
  - eexists. split; [done|]. split; [done|]. apply (Hthrows _ []).
Qed.

(** X12: on an entity whose array has no duplicate, running the script twice
    with the same sample gives what running it once gives. *)
Theorem update_idempotent (key : string) (ctx : source) (sample : dict) (s : scalar) :
  source_wf key ctx →
  sample !! key = Some s →
  ∃ ctx',
    UPDATE_SAMPLES_SCRIPT key ctx sample = Ok ctx' ∧
    UPDATE_SAMPLES_SCRIPT key ctx' sample = Ok ctx'.
Proof.
  intros Hwf Hs. unfold source_wf in Hwf.
  assert (Hagain : ∀ f (l : list dict) (m : dict),
            samples_wf key l → (sample ∪ m) = m → m !! key = Some s →
            UPDATE_SAMPLES_SCRIPT key
              {| fields := f;
                 samples := Some (filter (λ x : dict, x !! key ≠ Some s) l ++ [m]) |}
              sample
            = Ok {| fields := f;
                    samples := Some (filter (λ x : dict, x !! key ≠ Some s) l ++ [m]) |}).
  { intros f l m Hl Hm Hmk.
    assert (Hwf' : samples_wf key (filter (λ x : dict, x !! key ≠ Some s) l ++ [m])).
    { rewrite <-Hm. by apply update_wf_preserved. }
    erewrite update_wf_step; [|reflexivity|exact Hwf'|exact Hs]. cbn [fields].
    by rewrite filter_other_ids_snoc, existing_sample_snoc, Hm. }
  destruct (samples ctx) as [l|] eqn:Hctx.
  - rewrite (update_wf_step key ctx sample l s) by done.
    eexists. split; [done|]. apply Hagain; [done| |by apply lookup_union_Some_l].
    by rewrite (assoc_L (∪)), (idemp_L (∪)).
  - unfold UPDATE_SAMPLES_SCRIPT at 1. rewrite Hctx.
    eexists. split; [done|].
    apply (Hagain (fields ctx) [] sample); [|by apply (idemp_L (∪))|done].
    split; constructor.
Qed.

(** What a run with a keyed sample on a keyed array does, duplicates or
    not. *)
Lemma update_keyed_cases (key : string) (ctx : source) (sample : dict)
    (l : list dict) (v : scalar) :
  samples ctx = Some l →
  Forall (λ x : dict, is_Some (x !! key)) l →
  sample !! key = Some v →
  (∃ l1 x l2,
     l = l1 ++ x :: l2 ∧ x !! key = Some v ∧
     Forall (λ y : dict, y !! key ≠ Some v) l2 ∧
     UPDATE_SAMPLES_SCRIPT key ctx sample
     = Ok {| fields := fields ctx; samples := Some (l1 ++ l2 ++ [sample ∪ x]) |}) ∨
  (Forall (λ y : dict, y !! key ≠ Some v) l ∧
   UPDATE_SAMPLES_SCRIPT key ctx sample
   = Ok {| fields := fields ctx; samples := Some (l ++ [sample]) |}).
Proof.
  intros Hctx Hkeys Hs.
  destruct (decide (Exists (λ x : dict, x !! key = Some v) l)) as [Hex|Hex].
  - left. destruct (last_match_split _ l Hex) as (l1 & x & l2 & -> & Hx & Hl2).
    exists l1, x, l2. split; [done|]. split; [done|]. split; [done|].
    by apply (update_matching key ctx sample l1 x l2 v).
  - right. apply not_Exists_Forall in Hex; [|apply _]. split; [done|].
    by apply (update_no_match key ctx sample l v).
Qed.

(** X13: a run of the script leaves the elements with another ID as they
    are and in their order, and leaves the other fields of the document. *)
Theorem update_keeps_other_samples (key : string) (ctx : source) (sample : dict)
    (l : list dict) (v : scalar) :
  samples ctx = Some l →
  Forall (λ x : dict, is_Some (x !! key)) l →
  sample !! key = Some v →
  ∃ l',
    UPDATE_SAMPLES_SCRIPT key ctx sample
    = Ok {| fields := fields ctx; samples := Some l' |} ∧
    filter (λ x : dict, x !! key ≠ Some v) l'
    = filter (λ x : dict, x !! key ≠ Some v) l.
Proof.
  intros Hctx Hkeys Hs.
  destruct (update_keyed_cases key ctx sample l v Hctx Hkeys Hs)
    as [(l1 & x & l2 & -> & Hx & Hl2 & ->)|[Hl ->]];
    eexists; (split; [done|]); rewrite !filter_app.
  - rewrite (filter_cons_False _ x) by (intros ?; done).
    rewrite (filter_cons_False _ (sample ∪ x))
      by (intros Hne; apply Hne; by apply lookup_union_Some_l).
    by rewrite filter_nil, (right_id_L [] (++)).
  - rewrite (filter_cons_False _ sample) by (intros ?; done).
    by rewrite filter_nil, (right_id_L [] (++)).
Qed.

(** X14: the script never removes a duplicate: an array that holds [n]
    elements with the sample's ID holds [n] of them afterwards, and one when
    it held none. *)
Theorem update_keeps_duplicates (key : string) (ctx : source) (sample : dict)
    (l : list dict) (v : scalar) :
  samples ctx = Some l →
  Forall (λ x : dict, is_Some (x !! key)) l →
  sample !! key = Some v →
  ∃ l',
    UPDATE_SAMPLES_SCRIPT key ctx sample
    = Ok {| fields := fields ctx; samples := Some l' |} ∧
    length (filter (λ x : dict, x !! key = Some v) l')
    = Nat.max 1 (length (filter (λ x : dict, x !! key = Some v) l)).
Proof.
  intros Hctx Hkeys Hs.
  destruct (update_keyed_cases key ctx sample l v Hctx Hkeys Hs)
    as [(l1 & x & l2 & -> & Hx & Hl2 & ->)|[Hl ->]];
    eexists; (split; [done|]); rewrite !filter_app.
  - rewrite (filter_cons_True _ x) by done.
    rewrite (filter_cons_True _ (sample ∪ x)) by by apply lookup_union_Some_l.
    rewrite (filter_none (λ x : dict, x !! key = Some v) l2) by done.
    rewrite filter_nil, !length_app. simpl. lia.
  - rewrite (filter_cons_True _ sample) by done.
    rewrite (filter_none (λ x : dict, x !! key = Some v) l) by done.
    done.
Qed.

(** ** What an operation carries *)

Lemma string_map_compose (f g : ascii → ascii) (s : string) :
  string_map f (string_map g s) = string_map (λ c, f (g c)) s.
Proof. induction s as [|c s IH]; simpl; [done|]. by rewrite IH. Qed.

Lemma string_map_ext (f g : ascii → ascii) (s : string) :
  (∀ c, f c = g c) → string_map f s = string_map g s.
Proof. intros Hfg. induction s as [|c s IH]; simpl; [done|]. by rewrite Hfg, IH. Qed.

(** X15: the flag name of a file type of characters below 128 does not
    depend on the case of its letters nor on whether it is written with
    spaces or underscores. *)
Theorem has_name_normalises (file_type : string) :
  is_ascii file_type = true →
  has_name (lower file_type) = has_name file_type ∧
  has_name (replace_space file_type) = has_name file_type.
Proof.
  intros _. unfold has_name, lower, replace_space. split; f_equal.
  - rewrite (string_map_compose lower_ascii lower_ascii). f_equal.
    apply string_map_ext. intros [[] [] [] [] [] [] [] []]; reflexivity.
  - rewrite !string_map_compose. apply string_map_ext.
    intros [[] [] [] [] [] [] [] []]; reflexivity.
Qed.

Lemma mark_file_columns_fold_flag table_name (items : list (string * string))
    (row_dict : dict) (file_type col : string) :
  (file_type, col) ∈ items →
  contains table_name col = true →
  (∀ item, item ∈ items → contains table_name item.2 = true →
           has_name item.1 = has_name file_type → item = (file_type, col)) →
  (∀ item, item ∈ items → contains table_name item.2 = true →
           col ≠ has_name item.1) →
  foldl (mark_file_column table_name) row_dict items !! has_name file_type
  = Some (SBool (from_option truthy false (row_dict !! col))).
Proof.
  intros Hin Hc Huniq Hcol.
  induction items as [|item items IH] using rev_ind; [by apply elem_of_nil in Hin|].
  rewrite foldl_app. simpl. rewrite mark_file_column_lookup.
  case_decide as Hitem.
  - destruct Hitem as [Hc' Hname].
    rewrite (Huniq item) by (done || apply elem_of_app; right; by left). simpl.
    rewrite mark_file_columns_fold_keep; [done|].
    intros it Hit Hcit. apply Hcol; [|done]. apply elem_of_app. by left.
  - apply IH.
    + apply elem_of_app in Hin as [Hin|Hin%list_elem_of_singleton]; [done|].
      subst item. exfalso. by apply Hitem.
    + intros it Hit. apply Huniq. apply elem_of_app. by left.
    + intros it Hit. apply Hcol. apply elem_of_app. by left.
Qed.

Lemma contains_of_prefix (needle hay : string) :
  String.prefix needle hay = true → contains needle hay = true.
Proof.
  intros Hpre.
  assert (Hunfold : contains needle hay
                    = String.prefix needle hay
                      || match hay with
                         | EmptyString => false
                         | String _ hay' => contains needle hay'
                         end) by by destruct hay.
  by rewrite Hunfold, Hpre.
Qed.

Lemma contains_scoped (table_name c : string) :
  contains table_name (scoped table_name c) = true.
Proof. apply contains_of_prefix, prefix_append. Qed.

Section operation_fields.
Context `{DictOrder}.

Lemma sample_key_lookup table_name pid sid (r : row) k v :
  has_dot sid = false →
  k ≠ pid → k ≠ sid →
  r !! k = Some (Some v) →
  dict_comp (sample_key table_name sid) (delete pid (dropna r)) !! scoped table_name k
  = Some v.
Proof.
  intros Hdot Hkp Hks Hk.
  pose proof (dict_comp_lookup (sample_key table_name sid)
                (delete pid (dropna r)) k v) as Hlookup.
  unfold sample_key at 2 3 in Hlookup. rewrite decide_True in Hlookup by done.
  apply Hlookup; [by apply lookup_delete_dropna|].
  intros k' v' [_ Hk']%lookup_delete_dropna. unfold sample_key.
  case_decide as Hk's.
  - intros ->%(inj _). congruence.
  - intros Heq. subst k'. rewrite Heq in Hdot.
    by rewrite has_dot_scoped_name in Hdot.
Qed.

Lemma sample_key_lookup_None table_name pid sid (r : row) k :
  has_dot sid = false →
  k ≠ sid →
  r !! k = None ∨ r !! k = Some None ∨ k = pid →
  dict_comp (sample_key table_name sid) (delete pid (dropna r)) !! scoped table_name k
  = None.
Proof.
  intros Hdot Hks Hk. apply dict_comp_None. intros k' Heq.
  unfold sample_key in Heq. case_decide as Hk's.
  - apply (inj _) in Heq as <-.
    destruct (delete pid (dropna r) !! k) as [v|] eqn:Hv; [|done].
    apply lookup_delete_dropna in Hv as [Hne Hv].
    destruct Hk as [Hk|[Hk|Hk]]; congruence.
  - subst k'. rewrite <-Heq in Hdot. by rewrite has_dot_scoped_name in Hdot.
Qed.

(** X16: for a declared pair whose column is [table.c], the flag of the
    operation is true exactly when the row has a non-null, truthy value in
    column [c], and false otherwise, as long as no other pair of this table
    has the same flag name (the file types being of characters below
    128). *)
Theorem sample_scripts_flag_value (table_name pid sid : string)
    (sfc : gmap string string) (r : row) (eid : scalar) (file_type c : string) :
  r !! pid = Some (Some eid) →
  has_dot sid = false →
  c ≠ sid →
  sfc !! file_type = Some (scoped table_name c) →
  map_Forall (λ ft _, is_ascii ft = true) sfc →
  (∀ ft' col', sfc !! ft' = Some col' → contains table_name col' = true →
               has_name ft' = has_name file_type → ft' = file_type) →
  String.prefix "_has_" (scoped table_name c) = false →
  ∃ s, _sample_scripts_by_id_row table_name pid sid sfc r = Ok (eid, s) ∧
       params_sample s !! has_name file_type
       = Some (SBool (if decide (c = pid) then false
                      else from_option truthy false (r !! c ≫= id))).
Proof.
  intros Hid Hdot Hcs Hpair _ Huniq Hpre.
  assert (Hc : contains table_name (scoped table_name c) = true)
    by apply contains_scoped.
  eexists. split; [by apply sample_scripts_by_id_row_ok|].
  simpl. unfold mark_file_columns.
  rewrite (mark_file_columns_fold_flag table_name _ _ file_type (scoped table_name c)).
  - do 2 f_equal. case_decide as Hcp.
    + by rewrite sample_key_lookup_None by auto.
    + destruct (r !! c) as [[v|]|] eqn:Hrc; simpl.
      * by rewrite (sample_key_lookup _ _ _ _ c v).
      * by rewrite sample_key_lookup_None by auto.
      * by rewrite sample_key_lookup_None by auto.
  - by apply elem_of_iteritems.
  - done.
  - intros [ft' col'] Hin%elem_of_iteritems Hc' Hname. simpl in *.
    assert (ft' = file_type) as -> by by apply (Huniq ft' col').
    congruence.
  - intros [ft' col'] _ _ Heq. simpl in Heq.
    by rewrite Heq, has_name_prefix in Hpre.
Qed.

(** X17: declared file columns none of which contains the table name change
    nothing: the operation is the one built with no declared column. *)
Theorem sample_scripts_no_owned_column (table_name pid sid : string)
    (sfc : gmap string string) (r : row) :
  (∀ file_type col, sfc !! file_type = Some col → contains table_name col = false) →
  _sample_scripts_by_id_row table_name pid sid sfc r
  = _sample_scripts_by_id_row table_name pid sid ∅ r.
Proof.
  intros Hnone. unfold _sample_scripts_by_id_row.
  destruct (dict_del pid (dropna r)) as [row_dict|e]; simpl; [|done].
  assert (Hmark : ∀ (m : gmap string string) d,
            (∀ file_type col, m !! file_type = Some col →
                              contains table_name col = false) →
            mark_file_columns table_name m d = d).
  { intros m d Hm. apply map_eq. intros name. apply mark_file_columns_keep.
    intros file_type col Hin Hc. by rewrite (Hm file_type col Hin) in Hc. }
  rewrite (Hmark sfc) by done. rewrite (Hmark ∅); [done|].
  intros ? ? ?. by rewrite lookup_empty in *.
Qed.

End operation_fields.

(** ** What two tables leave in an entity's document *)

Lemma consume_cons_ok {A} (a : A) (gen : list (result A)) :
  (consume (Ok a :: gen)).1 = a :: (consume gen).1.
Proof. simpl. by destruct (consume gen). Qed.

Lemma merge_docs_cons (e : scalar) (acc : dict) (item : scalar * dict)
    (docs : list (scalar * dict)) :
  merge_docs e acc (item :: docs)
  = merge_docs e (if decide (item.1 = e) then item.2 ∪ acc else acc) docs.
Proof. done. Qed.

Section table_fields.
Context `{DictOrder}.

Lemma has_id_inv pid (r : row) :
  is_Some (dropna r !! pid) → ∃ i, r !! pid = Some (Some i) ∧ dropna r !! pid = Some i.
Proof.
  rewrite lookup_dropna. intros [i Hi]. exists i.
  destruct (r !! pid) as [[?|]|]; simpl in *; by simplify_eq.
Qed.

(** The documents of a table, merged for one entity, hold under
    [table.k] the last non-null value of column [k] in the entity's rows. *)
Lemma merge_docs_rows_scoped table_name pid (e : scalar) (k : string)
    (l : list row) (acc : dict) :
  k ≠ pid →
  Forall (λ r : row, is_Some (dropna r !! pid)) l →
  merge_docs e acc (consume (_docs_by_id_row table_name pid <$> l)).1
    !! scoped table_name k
  = column_value_from (acc !! scoped table_name k) pid e k l.
Proof.
  intros Hk Hids. revert acc.
  induction Hids as [|r l Hr _ IH]; intros acc; [done|].
  destruct (has_id_inv pid r Hr) as (i & Hi & Hdi).
  rewrite fmap_cons, (docs_by_id_row_ok _ _ _ i) by done.
  rewrite consume_cons_ok, merge_docs_cons, IH. cbn [fst snd].
  unfold column_value_from. cbn [foldl]. f_equal.
  rewrite Hdi. destruct (decide (i = e)) as [->|Hne].
  - rewrite decide_True by done.
    rewrite lookup_union, lookup_kmap by apply _.
    rewrite lookup_delete_ne by done.
    by destruct (dropna r !! k), (acc !! scoped table_name k).
  - by rewrite decide_False by congruence.
Qed.

(** They hold nothing under a name that is not [table.k] for a column [k]
    other than the entity ID. *)
Lemma merge_docs_rows_other df table_name pid (e : scalar) (name : string)
    (acc : dict) :
  bigquery_columns df →
  (∀ k, k ≠ pid → has_dot k = false → name ≠ scoped table_name k) →
  merge_docs e acc (consume (_docs_by_id df table_name pid)).1 !! name = acc !! name.
Proof.
  intros Hcols Hname. unfold _docs_by_id, bigquery_columns in *. revert acc.
  induction Hcols as [|r l Hr _ IH]; intros acc; [done|].
  rewrite fmap_cons.
  destruct (r !! pid) as [[i|]|] eqn:Hi.
  - rewrite (docs_by_id_row_ok _ _ _ i) by done.
    rewrite consume_cons_ok, merge_docs_cons, IH. cbn [fst snd].
    case_decide; [|done].
    rewrite lookup_union_r; [done|].
    apply lookup_kmap_None; [apply _|]. intros k ->.
    destruct (delete pid (dropna r) !! k) as [v|] eqn:Hv; [|done].
    apply lookup_delete_dropna in Hv as [Hne Hv].
    exfalso. apply (Hname k Hne); [|done]. by apply (Hr k (Some v)).
  - by rewrite docs_by_id_row_null_id by auto.
  - by rewrite docs_by_id_row_null_id by auto.
Qed.

Lemma docs_by_id_ids df table_name pid (e : scalar) :
  Forall (λ r : row, is_Some (dropna r !! pid)) (rows df) →
  e ∈ (consume (_docs_by_id df table_name pid)).1.*1 ↔
  Exists (λ r : row, dropna r !! pid = Some e) (rows df).
Proof.
  unfold _docs_by_id. induction 1 as [|r l Hr _ IH].
  - rewrite Exists_nil. split; [by intros ?%elem_of_nil|done].
  - destruct (has_id_inv pid r Hr) as (i & Hi & Hdi).
    rewrite fmap_cons, (docs_by_id_row_ok _ _ _ i) by done.
    rewrite consume_cons_ok, fmap_cons, elem_of_cons, Exists_cons, IH, Hdi.
    cbn [fst]. split; (intros [?|?]; [left; congruence|by right]).
Qed.

(** C3: the documents [_docs_by_id] yields for two different tables can be
    applied in either order, the stores reached are equal; the fields the
    two tables give an entity are disjoint and the entity ends with their
    union over what it had; and when every row has an entity ID, an entity
    that has a row in one of the tables ends with, under [A.k] and under
    [B.k], the last non-null value of column [k] in its rows of that table
    (what it had before when there is none), every other field unchanged. *)
Theorem docs_by_id_tables_commute (dfA dfB : DataFrame) (A B pid : string)
    (store : gmap scalar dict) :
  A ≠ B →
  bigquery_columns dfA →
  bigquery_columns dfB →
  let docsA := (consume (_docs_by_id dfA A pid)).1 in
  let docsB := (consume (_docs_by_id dfB B pid)).1 in
  let final := bulk_index_docs (bulk_index_docs store docsA) docsB in
  final = bulk_index_docs (bulk_index_docs store docsB) docsA
  ∧ (∀ id, id ∈ docsA.*1 → id ∈ docsB.*1 →
       merge_docs id ∅ docsA ##ₘ merge_docs id ∅ docsB
       ∧ final !! id
         = Some (merge_docs id ∅ docsA ∪ merge_docs id ∅ docsB
                 ∪ default ∅ (store !! id)))
  ∧ (Forall (λ r : row, is_Some (dropna r !! pid)) (rows dfA) →
     Forall (λ r : row, is_Some (dropna r !! pid)) (rows dfB) →
     ∀ e,
       (¬ Exists (λ r : row, dropna r !! pid = Some e) (rows dfA ++ rows dfB) →
        final !! e = store !! e) ∧
       (Exists (λ r : row, dropna r !! pid = Some e) (rows dfA ++ rows dfB) →
        ∃ doc,
          final !! e = Some doc ∧
          (∀ k, k ≠ pid → has_dot k = false →
             doc !! scoped A k
             = match column_value dfA pid e k with
               | Some v => Some v
               | None => default ∅ (store !! e) !! scoped A k
               end) ∧
          (∀ k, k ≠ pid → has_dot k = false →
             doc !! scoped B k
             = match column_value dfB pid e k with
               | Some v => Some v
               | None => default ∅ (store !! e) !! scoped B k
               end) ∧
          (∀ name,
             (∀ k, k ≠ pid → has_dot k = false →
                   name ≠ scoped A k ∧ name ≠ scoped B k) →
             doc !! name = default ∅ (store !! e) !! name))).
Proof.
  intros Hne HA HB docsA docsB final.
  assert (Hdisj : ∀ id, merge_docs id ∅ docsA ##ₘ merge_docs id ∅ docsB)
    by (intros id; by apply merge_docs_disjoint).
  split; [|split].
  - apply map_eq. intros id. unfold final. rewrite !bulk_index_docs_lookup.
    destruct (decide (id ∈ docsA.*1)), (decide (id ∈ docsB.*1)); simpl; try done.
    f_equal. rewrite !(assoc_L (∪)). f_equal. symmetry. by apply map_union_comm.
  - intros id HinA HinB. split; [done|]. unfold final.
    rewrite !bulk_index_docs_lookup, !decide_True by done. simpl.
    f_equal. rewrite !(assoc_L (∪)). f_equal. symmetry. by apply map_union_comm.
  - intros HidA HidB e.
    assert (Hfinal : final !! e
              = if decide (e ∈ docsA.*1 ∨ e ∈ docsB.*1)
                then Some (merge_docs e ∅ docsB
                           ∪ (merge_docs e ∅ docsA ∪ default ∅ (store !! e)))
                else store !! e).
    { unfold final. rewrite !bulk_index_docs_lookup.
      destruct (decide (e ∈ docsA.*1)) as [HeA|HeA],
               (decide (e ∈ docsB.*1)) as [HeB|HeB]; simpl.
      - by rewrite decide_True by auto.
      - rewrite decide_True by auto.
        by rewrite (merge_docs_notin e ∅ docsB), (left_id_L ∅ (∪)).
      - rewrite decide_True by auto.
        by rewrite (merge_docs_notin e ∅ docsA), (left_id_L ∅ (∪)).
      - rewrite decide_False; [done|]. by intros [?|?]. }
    assert (Hrows : e ∈ docsA.*1 ∨ e ∈ docsB.*1 ↔
              Exists (λ r : row, dropna r !! pid = Some e) (rows dfA ++ rows dfB)).
    { unfold docsA, docsB. rewrite Exists_app, !docs_by_id_ids by done. done. }
    split.
    + intros Hnone. rewrite Hfinal, decide_False; [done|]. by rewrite Hrows.
    + intros Hsome. rewrite Hfinal, decide_True by by rewrite Hrows.
      eexists. split; [done|]. split; [|split].
      * intros k Hk Hdot. rewrite lookup_union_r.
        -- rewrite lookup_union. unfold docsA, _docs_by_id.
           rewrite merge_docs_rows_scoped by done. rewrite lookup_empty.
           unfold column_value.
           by destruct (column_value_from None pid e k (rows dfA)),
                       (default ∅ (store !! e) !! scoped A k).
        -- unfold docsB. rewrite merge_docs_rows_other; [done|done|].
           intros k' Hk' Hdot' Heq.
           by destruct (scoped_eq_inv A B k k' Hdot Hdot' Heq).
      * intros k Hk Hdot. rewrite (assoc_L (∪)), lookup_union.
        rewrite lookup_union. unfold docsB at 1, _docs_by_id.
        rewrite merge_docs_rows_scoped by done. rewrite lookup_empty.
        unfold docsA. rewrite merge_docs_rows_other; [|done|].
        -- rewrite lookup_empty. unfold column_value.
           by destruct (column_value_from None pid e k (rows dfB)),
                       (default ∅ (store !! e) !! scoped B k).
        -- intros k' Hk' Hdot' Heq.
           by destruct (scoped_eq_inv B A k k' Hdot Hdot' Heq).
      * intros name Hname. rewrite !lookup_union.
        unfold docsA, docsB.
        rewrite !merge_docs_rows_other, lookup_empty;
          [|done|intros k ? ?; by apply Hname|done|intros k ? ?; by apply Hname].
        by destruct (default ∅ (store !! e) !! name).
Qed.

End table_fields.

(** ** The fields of an operation *)

Lemma prefix_scoped_false (p table_name k : string) :
  has_dot p = false →
  String.prefix p table_name = false →
  String.prefix p (scoped table_name k) = false.
Proof.
  unfold scoped. revert table_name.
  induction p as [|a p IH]; intros table_name Hdot Hpre.
  - by destruct table_name.
  - simpl in Hdot. apply orb_false_iff in Hdot as [Ha Hdot].
    destruct table_name as [|b t].
    + rewrite append_nil_l. change ("." +:+ k) with (String "."%char k). simpl.
      destruct (ascii_dec a "."%char) as [->|_]; [|done].
      by rewrite Ascii.eqb_refl in Ha.
    + rewrite append_cons. simpl in *.
      destruct (ascii_dec a b); [|done]. by apply IH.
Qed.

Section operation_columns.
Context `{DictOrder}.

Lemma sample_key_lookup_sid table_name pid sid (r : row) :
  has_dot sid = false →
  dict_comp (sample_key table_name sid) (delete pid (dropna r)) !! sid
  = delete pid (dropna r) !! sid.
Proof.
  intros Hdot.
  assert (Hsk : sample_key table_name sid sid = sid)
    by (unfold sample_key; by rewrite decide_False by (intros ?; done)).
  destruct (delete pid (dropna r) !! sid) as [v|] eqn:Hv.
  - pose proof (dict_comp_lookup (sample_key table_name sid)
                  (delete pid (dropna r)) sid v) as Hlookup.
    rewrite Hsk in Hlookup. apply Hlookup; [done|].
    intros k' v' Hk'. unfold sample_key. case_decide as Hk.
    + intros Heq. rewrite <-Heq in Hdot.
      by rewrite has_dot_scoped_name in Hdot.
    + intros _. subst k'. congruence.
  - apply dict_comp_None. intros k' Heq. unfold sample_key in Heq.
    case_decide as Hk; [|by subst k'].
    rewrite Heq in Hdot. by rewrite has_dot_scoped_name in Hdot.
Qed.

Lemma sample_key_lookup_scoped_sid table_name pid sid (r : row) :
  has_dot sid = false →
  dict_comp (sample_key table_name sid) (delete pid (dropna r))
    !! scoped table_name sid = None.
Proof.
  intros Hdot. apply dict_comp_None. intros k' Heq. unfold sample_key in Heq.
  case_decide as Hk.
  - by apply (inj _) in Heq.
  - subst k'. rewrite <-Heq in Hdot. by rewrite has_dot_scoped_name in Hdot.
Qed.

Lemma sample_key_lookup_scoped table_name pid sid (r : row) k :
  has_dot sid = false →
  k ≠ sid →
  dict_comp (sample_key table_name sid) (delete pid (dropna r)) !! scoped table_name k
  = delete pid (dropna r) !! k.
Proof.
  intros Hdot Hks.
  destruct (delete pid (dropna r) !! k) as [v|] eqn:Hv.
  - apply lookup_delete_dropna in Hv as [Hkp Hv]. by apply sample_key_lookup.
  - apply dict_comp_None. intros k' Heq. unfold sample_key in Heq.
    case_decide as Hk's.
    + by apply (inj _) in Heq as <-.
    + subst k'. rewrite <-Heq in Hdot. by rewrite has_dot_scoped_name in Hdot.
Qed.

(** C4: in the operation built from a row, the sample-ID column is a field
    under its own, unscoped name and with the row's value, and is no field
    under its scoped name; every other column than the two ID columns is a
    field under its name prefixed with the table name and a dot, with the
    row's value, and is absent when it is null; the entity-ID column is no
    field; the only other fields are derived flags. The sample-ID column
    holds no dot and neither it nor the table name starts with [_has_], so
    that no column and no flag takes another's name. *)
Theorem sample_scripts_fields_scoped (df : DataFrame)
    (table_name pid sid : string) (sfc : gmap string string)
    (i : nat) (r : row) (eid : scalar) :
  rows df !! i = Some r →
  r !! pid = Some (Some eid) →
  has_dot sid = false →
  String.prefix "_has_" sid = false →
  String.prefix "_has_" table_name = false →
  ∃ s : script,
    _sample_scripts_by_id df table_name pid sid sfc !! i = Some (Ok (eid, s)) ∧
    script_key s = sid ∧
    params_sample s !! sid = (if decide (sid = pid) then None else dropna r !! sid) ∧
    params_sample s !! scoped table_name sid = None ∧
    params_sample s !! scoped table_name pid = None ∧
    (∀ k, k ≠ pid → k ≠ sid →
       params_sample s !! scoped table_name k = dropna r !! k) ∧
    (∀ name, is_Some (params_sample s !! name) →
       (name = sid ∧ sid ≠ pid ∧ is_Some (dropna r !! sid)) ∨
       (∃ k, k ≠ pid ∧ k ≠ sid ∧ is_Some (dropna r !! k) ∧
             name = scoped table_name k) ∨
       (∃ file_type col, sfc !! file_type = Some col ∧
             contains table_name col = true ∧
             String.prefix "_has_" name = true ∧
             (is_ascii file_type = true → name = has_name file_type))).
Proof.
  intros Hi Hid Hdot Hpre HpreT.
  exists {| script_key := sid; lang := "painless";
            params_sample :=
              mark_file_columns table_name sfc
                (dict_comp (sample_key table_name sid) (delete pid (dropna r))) |}.
  assert (Hflag_sid : ∀ file_type col, sfc !! file_type = Some col →
            contains table_name col = true → sid ≠ has_name file_type).
  { intros file_type col _ _ ->. by rewrite has_name_prefix in Hpre. }
  assert (Hflag_scoped : ∀ k file_type col, sfc !! file_type = Some col →
            contains table_name col = true → scoped table_name k ≠ has_name file_type).
  { intros k file_type col _ _ Heq.
    pose proof (prefix_scoped_false "_has_" table_name k eq_refl HpreT) as Hk.
    by rewrite Heq, has_name_prefix in Hk. }
  cbn [script_key params_sample].
  split; [|split; [done|split; [|split; [|split; [|split]]]]].
  - unfold _sample_scripts_by_id. rewrite list_lookup_fmap, Hi. simpl.
    by rewrite (sample_scripts_by_id_row_ok _ _ _ _ _ eid).
  - rewrite mark_file_columns_keep by done.
    rewrite sample_key_lookup_sid by done. case_decide as Hsp.
    + subst pid. by rewrite lookup_delete_eq.
    + by rewrite lookup_delete_ne.
  - rewrite mark_file_columns_keep by by apply Hflag_scoped.
    by apply sample_key_lookup_scoped_sid.
  - rewrite mark_file_columns_keep by by apply Hflag_scoped.
    destruct (decide (pid = sid)) as [->|Hps].
    + by apply sample_key_lookup_scoped_sid.
    + rewrite sample_key_lookup_scoped by done. by rewrite lookup_delete_eq.
  - intros k Hkp Hks. rewrite mark_file_columns_keep by by apply Hflag_scoped.
    rewrite sample_key_lookup_scoped by done. by rewrite lookup_delete_ne.
  - intros name. rewrite mark_file_columns_dom.
    intros [[v Hv]|(file_type & col & Hpair & Hc & ->)].
    + apply dict_comp_Some_inv in Hv as (k & -> & Hk).
      apply lookup_delete_Some in Hk as [Hne Hk]. unfold sample_key.
      case_decide as Hks.
      * right. left. exists k. by rewrite Hk.
      * left. subst k. by rewrite Hk.
    + right. right. exists file_type, col.
      split; [done|]. split; [done|]. split; [apply has_name_prefix|done].
Qed.

End operation_columns.

(** ** The weight, height and center tables, through the theorems *)

Lemma docs_by_id_tables_commute_witness :
  "proj.ds.weight" ≠ "proj.ds.height" ∧
  bigquery_columns weight_df ∧
  bigquery_columns height_df ∧
  Forall (λ r : row, is_Some (dropna r !! "pid")) (rows weight_df) ∧
  Forall (λ r : row, is_Some (dropna r !! "pid")) (rows height_df) ∧
  bulk_index_docs
    (bulk_index_docs ∅
       (consume (_docs_by_id (H := sorted_order) weight_df "proj.ds.weight" "pid")).1)
    (consume (_docs_by_id (H := sorted_order) height_df "proj.ds.height" "pid")).1
  = bulk_index_docs
      (bulk_index_docs ∅
         (consume (_docs_by_id (H := sorted_order) height_df "proj.ds.height" "pid")).1)
      (consume (_docs_by_id (H := sorted_order) weight_df "proj.ds.weight" "pid")).1 ∧
  ∃ doc : dict,
    bulk_index_docs
      (bulk_index_docs ∅
         (consume (_docs_by_id (H := sorted_order) weight_df "proj.ds.weight" "pid")).1)
      (consume (_docs_by_id (H := sorted_order) height_df "proj.ds.height" "pid")).1
      !! SStr "P1" = Some doc ∧
    doc !! "proj.ds.weight.value" = Some (SInt 70) ∧
    doc !! "proj.ds.height.value" = Some (SInt 180) ∧
    doc !! "proj.ds.weight.note" = None ∧
    doc !! "proj.ds.weight.pid" = None.
Proof.
  assert (Hne : "proj.ds.weight" ≠ "proj.ds.height") by discriminate.
  assert (Hw : bigquery_columns weight_df)
    by (apply (bool_decide_unpack _); vm_compute; exact I).
  assert (Hh : bigquery_columns height_df)
    by (apply (bool_decide_unpack _); vm_compute; exact I).
  assert (Hwid : Forall (λ r : row, is_Some (dropna r !! "pid")) (rows weight_df))
    by (repeat constructor; exists (SStr "P1"); reflexivity).
  assert (Hhid : Forall (λ r : row, is_Some (dropna r !! "pid")) (rows height_df))
    by (repeat constructor; exists (SStr "P1"); reflexivity).
  split; [exact Hne|]. split; [exact Hw|]. split; [exact Hh|].
  split; [exact Hwid|]. split; [exact Hhid|].
  destruct (docs_by_id_tables_commute (H := sorted_order) weight_df height_df
              "proj.ds.weight" "proj.ds.height" "pid" ∅ Hne Hw Hh)
    as (Hcomm & _ & Hfields).
  split; [exact Hcomm|].
  destruct (Hfields Hwid Hhid (SStr "P1")) as [_ Hdoc].
  destruct Hdoc as (doc & Hfinal & HA & HB & Hother).
  { left. reflexivity. }
  exists doc. split; [exact Hfinal|]. split; [|split; [|split]].
  - exact (HA "value" ltac:(discriminate) eq_refl).
  - exact (HB "value" ltac:(discriminate) eq_refl).
  - exact (HA "note" ltac:(discriminate) eq_refl).
  - apply Hother. intros k Hk _. split; intros Heq.
    + apply Hk. symmetry. exact (scoped_inj "proj.ds.weight" "pid" k Heq).
    + cbv in Heq. discriminate Heq.
Defined.

Lemma sample_scripts_fields_scoped_witness :
  rows center_df !! 0%nat = Some center_row ∧
  center_row !! "pid" = Some (Some (SStr "P1")) ∧
  has_dot "sid" = false ∧
  String.prefix "_has_" "sid" = false ∧
  String.prefix "_has_" "proj.ds.center" = false ∧
  ∃ s : script,
    _sample_scripts_by_id (H := sorted_order) center_df "proj.ds.center" "pid" "sid" ∅
      !! 0%nat = Some (Ok (SStr "P1", s)) ∧
    script_key s = "sid" ∧
    params_sample s !! "sid" = Some (SStr "S1") ∧
    params_sample s !! "proj.ds.center.center" = Some (SStr "A") ∧
    params_sample s !! "proj.ds.center.sid" = None ∧
    params_sample s !! "proj.ds.center.pid" = None.
Proof.
  split; [reflexivity|]. split; [reflexivity|]. split; [reflexivity|].
  split; [reflexivity|]. split; [reflexivity|].
  destruct (sample_scripts_fields_scoped (H := sorted_order) center_df
              "proj.ds.center" "pid" "sid" ∅ 0 center_row (SStr "P1")
              eq_refl eq_refl eq_refl eq_refl eq_refl)
    as (s & Hs & Hkey & Hsid & Hssid & Hspid & Hcols & _).
  exists s. split; [exact Hs|]. split; [exact Hkey|].
  split; [exact Hsid|]. split; [|split; [exact Hssid|exact Hspid]].
  exact (Hcols "center" ltac:(discriminate) ltac:(discriminate)).
Defined.

(** ** The fields index *)

Lemma field_docs_of_eq (id_prefix name_prefix : string) (f : SchemaField) :
  field_docs_of id_prefix name_prefix f
  = match f with
    | Field fname ftype _ descr subs =>
        if String.eqb ftype "RECORD"
        then _field_docs_by_id (join_prefix id_prefix fname)
               (join_prefix name_prefix fname) subs
        else [(join_prefix id_prefix fname,
               field_dict (join_prefix name_prefix fname) descr)]
    end.
Proof.
  destruct f as [fname ftype fmode descr subs]. simpl.
  destruct (String.eqb ftype "RECORD"); [|done].
  induction subs as [|g subs IH]; [done|]. simpl. by rewrite IH.
Qed.

Lemma leaf_count_eq (f : SchemaField) :
  leaf_count f
  = match f with
    | Field _ ftype _ _ subs =>
        if String.eqb ftype "RECORD" then sum_list (leaf_count <$> subs) else 1%nat
    end.
Proof.
  destruct f as [fname ftype fmode descr subs]. simpl.
  destruct (String.eqb ftype "RECORD"); [|done].
  induction subs as [|g subs IH]; [done|]. simpl. by rewrite IH.
Qed.

Lemma names_nonempty_eq (f : SchemaField) :
  names_nonempty f
  = match f with
    | Field fname _ _ _ subs =>
        negb (String.eqb fname "") && forallb names_nonempty subs
    end.
Proof. by destruct f. Qed.

(** X18: [_field_docs_by_id] yields one document for every field that is
    not a record, at any depth, and none for a record itself: a record
    without sub-fields yields nothing. *)
Theorem field_docs_count (id_prefix name_prefix : string) (fields : list SchemaField) :
  length (_field_docs_by_id id_prefix name_prefix fields)
  = sum_list (leaf_count <$> fields).
Proof.
  assert (Hfield : ∀ f ip np, length (field_docs_of ip np f) = leaf_count f).
  { induction f as [fname ftype fmode descr subs IHsubs] using SchemaField_nested_ind.
    intros ip np. rewrite field_docs_of_eq, leaf_count_eq.
    destruct (String.eqb ftype "RECORD"); [|done].
    generalize (join_prefix ip fname) (join_prefix np fname). intros ip' np'.
    induction IHsubs as [|g subs Hg _ IH]; [done|].
    simpl. by rewrite length_app, Hg, IH. }
  induction fields as [|f fields IH]; [done|].
  simpl. by rewrite length_app, Hfield, IH.
Qed.

Lemma join_prefix_nonempty (prefix name : string) :
  prefix ≠ "" → join_prefix prefix name = prefix +:+ "." +:+ name.
Proof.
  intros Hne. unfold join_prefix.
  destruct (String.eqb prefix "") eqn:Heq; [|done].
  by apply String.eqb_eq in Heq.
Qed.

Lemma append_nonempty (s1 s2 : string) : s1 ≠ "" → s1 +:+ s2 ≠ "".
Proof. by destruct s1. Qed.

Lemma join_prefix_path (name_prefix fname path : string) :
  fname ≠ "" →
  join_prefix (join_prefix name_prefix fname) path
  = join_prefix name_prefix (fname +:+ "." +:+ path).
Proof.
  intros Hne. unfold join_prefix at 2 3.
  destruct (String.eqb name_prefix "") eqn:Hnp.
  - by apply join_prefix_nonempty.
  - apply String.eqb_neq in Hnp.
    rewrite join_prefix_nonempty by by apply append_nonempty.
    by rewrite append_assoc.
Qed.

Lemma field_dict_name (field_name : string) (descr : option string) :
  field_dict field_name descr !! "name" = Some (SStr field_name).
Proof.
  unfold field_dict. destruct descr as [d|]; [destruct (String.eqb d "")|];
    by rewrite ?lookup_insert_ne, lookup_singleton_eq.
Qed.

Lemma field_docs_of_path (f : SchemaField) (id_prefix name_prefix fid : string)
    (doc : dict) :
  id_prefix ≠ "" →
  names_nonempty f = true →
  (fid, doc) ∈ field_docs_of id_prefix name_prefix f →
  ∃ path, fid = id_prefix +:+ "." +:+ path ∧
          doc !! "name" = Some (SStr (join_prefix name_prefix path)).
Proof.
  revert id_prefix name_prefix.
  induction f as [fname ftype fmode descr subs IHsubs] using SchemaField_nested_ind.
  intros ip np Hip. rewrite names_nonempty_eq, field_docs_of_eq.
  intros [Hname%negb_true_iff%String.eqb_neq Hsubs]%andb_true_iff.
  destruct (String.eqb ftype "RECORD").
  - assert (Hip' : join_prefix ip fname ≠ "").
    { rewrite join_prefix_nonempty by done. by apply append_nonempty. }
    revert Hip'. rewrite (join_prefix_nonempty ip fname) by done.
    intros Hip'. induction IHsubs as [|g subs Hg _ IH]; simpl in *.
    + by intros ?%elem_of_nil.
    + apply andb_true_iff in Hsubs as [Hgn Hsubs].
      intros [Hin|Hin]%elem_of_app; [|by apply IH].
      destruct (Hg _ _ Hip' Hgn Hin) as (path & -> & Hdoc).
      exists (fname +:+ "." +:+ path). split; [by rewrite !append_assoc|].
      by rewrite <-join_prefix_path.
  - intros [= -> ->]%list_elem_of_singleton.
    exists fname. split; [by apply join_prefix_nonempty|]. apply field_dict_name.
Qed.

(** X19: with [index_fields]'s empty name prefix, the ID of every document
    [_field_docs_by_id] yields is the ID prefix, a dot, and the name the
    document carries: the dotted path of the field. *)
Theorem field_docs_id_is_prefixed_name (id_prefix : string)
    (fields : list SchemaField) (fid : string) (doc : dict) :
  id_prefix ≠ "" →
  forallb names_nonempty fields = true →
  (fid, doc) ∈ _field_docs_by_id id_prefix "" fields →
  ∃ path, fid = id_prefix +:+ "." +:+ path ∧ doc !! "name" = Some (SStr path).
Proof.
  intros Hip. induction fields as [|f fields IH]; simpl.
  - by intros _ ?%elem_of_nil.
  - intros [Hf Hfields]%andb_true_iff [Hin|Hin]%elem_of_app; [|by apply IH].
    by apply (field_docs_of_path f id_prefix "").
Qed.

Lemma fields_id_prefix_absent (table_name : string) (sid : option string)
    (fields : list SchemaField) :
  column_in sid (field_name <$> fields) = false →
  fields_id_prefix table_name sid fields = table_name.
Proof.
  unfold fields_id_prefix. revert table_name.
  induction fields as [|f fields IH]; intros table_name Hnotin; [done|].
  cbn [foldl].
  assert (Hne : Some (field_name f) ≠ sid).
  { intros <-. simpl in Hnotin. apply bool_decide_eq_false in Hnotin.
    apply Hnotin. left. }
  rewrite decide_False by done. apply IH.
  destruct sid as [s|]; [|done]. simpl in *.
  apply bool_decide_eq_false in Hnotin. apply bool_decide_eq_false.
  intros Hin. apply Hnotin. by right.
Qed.

Lemma fields_id_prefix_eq (table_name : string) (sid : option string)
    (fields : list SchemaField) :
  NoDup (field_name <$> fields) →
  fields_id_prefix table_name sid fields
  = if column_in sid (field_name <$> fields)
    then "samples." +:+ table_name else table_name.
Proof.
  revert table_name.
  induction fields as [|f fields IH]; intros table_name Hnodup.
  - by destruct sid.
  - rewrite fmap_cons in Hnodup. apply NoDup_cons in Hnodup as [Hf Hnodup].
    unfold fields_id_prefix in *. cbn [foldl]. case_decide as Hsid.
    + subst sid. cbn [column_in]. rewrite fmap_cons.
      rewrite bool_decide_eq_true_2 by left.
      apply (fields_id_prefix_absent _ (Some (field_name f))). cbn [column_in].
      by apply bool_decide_eq_false.
    + rewrite IH by done. destruct sid as [s|]; [|done]. cbn [column_in].
      rewrite fmap_cons.
      rewrite (bool_decide_ext (s ∈ field_name f :: (field_name <$> fields))
                 (s ∈ field_name <$> fields)); [done|].
      rewrite elem_of_cons. split; [|by right]. intros [->|?]; done.
Qed.

(** X20: [index_fields] makes one bulk call, on the index it is given; the
    IDs of the documents start with [samples.] and the table name when the
    schema has a field named like the sample-ID column, and with the table
    name alone when it has none. *)
Theorem index_fields_id_prefix (index_name : string) (t : table)
    (sid : option string) (table_name : string) :
  _table_name_from_table t = Ok table_name →
  NoDup (field_name <$> schema t) →
  index_fields index_name t sid
  = ([BulkIndexDocs index_name
        ((λ item : string * dict, (SStr item.1, item.2))
           <$> _field_docs_by_id
                 (if column_in sid (field_name <$> schema t)
                  then "samples." +:+ table_name else table_name)
                 "" (schema t))],
     Ok ()).
Proof.
  intros Hname Hnodup. unfold index_fields. rewrite Hname.
  by rewrite fields_id_prefix_eq.
Qed.

(** ** The export, sample by sample *)

Lemma export_fields_keep (export_sample : dict) (items : list (string * scalar))
    (k : string) :
  (∀ item a b c, item ∈ items → split_dot item.1 ≠ [a; b; c; k]) →
  foldl export_field export_sample items !! k = export_sample !! k.
Proof.
  revert export_sample. induction items as [|[name value] items IH];
    intros export_sample Hk; [done|].
  cbn [foldl]. rewrite IH by (intros item a b c Hin; apply Hk; by right).
  destruct (decide (four_segments (name, value))) as [Hfour|Hfour].
  - destruct (export_field_keep export_sample name value Hfour)
      as (a & b & c & k' & Hsplit & ->).
    apply lookup_insert_ne. intros ->.
    by apply (Hk (name, value) a b c); [left|].
  - by rewrite export_field_skip.
Qed.

Section export_records.
Context `{DictOrder}.

Lemma export_hits_records (entities : list entity) (hits : list (string * source)) :
  Forall (λ ps : string * dict, is_Some (ps.2 !! "sample_id")) (scanned_samples hits) →
  ∃ new,
    foldM export_hit entities hits = Ok (entities ++ new) ∧
    Forall2 (λ (ps : string * dict) e, export_sample_entity ps.1 ps.2 = Ok e)
      (scanned_samples hits) new.
Proof.
  unfold scanned_samples. revert entities.
  induction hits as [|[pid doc] hits IH]; intros entities Hids.
  - exists []. split; [by rewrite (right_id_L [] (++))|constructor].
  - rewrite bind_cons in Hids. apply Forall_app in Hids as [Hhit Hids].
    change (foldM export_hit entities ((pid, doc) :: hits))
      with (export_hit entities (pid, doc) ≫= λ es, foldM export_hit es hits).
    destruct (export_hit_cases entities pid doc) as [(new & -> & Hall)|[_ Hex]].
    + change (Ok ?a ≫= ?k) with (k a). cbv beta.
      destruct (IH (entities ++ new) Hids) as (new' & -> & Hall').
      exists (new ++ new'). split; [by rewrite (assoc_L (++))|].
      rewrite bind_cons. apply Forall2_app; [|done].
      cbn [fst snd]. by apply Forall2_fmap_l.
    + exfalso. apply Exists_exists in Hex as (sample & Hin & Hnone).
      cbn [fst snd] in Hhit. rewrite Forall_fmap, Forall_forall in Hhit.
      specialize (Hhit sample Hin). simpl in Hhit. rewrite Hnone in Hhit.
      by destruct Hhit.
Qed.

(** X21: when every sample has [sample_id], the export has one record per
    sample, in the order of the hits and of the samples in each hit; a
    record has the type [sample], the sample's [sample_id] as name and the
    attributes built from that sample with the ID of its hit. *)
Theorem export_one_record_per_sample (hits : list (string * source)) :
  Forall (λ ps : string * dict, is_Some (ps.2 !! "sample_id")) (scanned_samples hits) →
  ∃ entities,
    create_samples_json_export_file hits = Ok entities ∧
    Forall2 (λ (ps : string * dict) e,
               entityType e = "sample" ∧
               ps.2 !! "sample_id" = Some (ename e) ∧
               attributes e = export_attributes ps.1 (iteritems ps.2))
      (scanned_samples hits) entities.
Proof.
  intros Hids. unfold create_samples_json_export_file.
  destruct (export_hits_records [] hits Hids) as (new & -> & Hall).
  exists new. split; [done|].
  eapply Forall2_impl; [exact Hall|].
  intros [pid sample] e. unfold export_sample_entity, dict_get. simpl.
  destruct (sample !! "sample_id") as [v|]; [|done]. by intros [= <-].
Qed.

(** X22: a record's [participant] attribute is the ID of the hit, unless
    the sample has a field of four segments whose last is [participant]. *)
Theorem export_participant_attribute (participant_id : string) (sample : dict)
    (v : scalar) :
  sample !! "sample_id" = Some v →
  (∀ name a b c, is_Some (sample !! name) →
                 split_dot name ≠ [a; b; c; "participant"]) →
  ∃ e, export_sample_entity participant_id sample = Ok e ∧
       attributes e !! "participant" = Some (SStr participant_id).
Proof.
  intros Hv Hfields. eexists. split; [by apply export_sample_entity_ok|].
  simpl. unfold export_attributes. rewrite export_fields_keep.
  - apply lookup_singleton_eq.
  - intros [name value] a b c Hin%elem_of_iteritems. simpl.
    apply Hfields. by exists value.
Qed.

End export_records.

(** ** The edges, through the theorems *)

Lemma read_table_last_two_dots_witness :
  (2 ≤ count_char "." "google.com.ds.t")%nat ∧
  ∃ project_id dataset_id name,
    "google.com.ds.t" = project_id +:+ "." +:+ dataset_id +:+ "." +:+ name ∧
    has_char "." dataset_id = false ∧
    has_char "." name = false ∧
    read_table legacy_client "google.com.ds.t"
    = legacy_client project_id dataset_id name.
Proof.
  assert (Hdots : (2 ≤ count_char "." "google.com.ds.t")%nat) by (vm_compute; lia).
  split; [exact Hdots|].
  exact (read_table_last_two_dots legacy_client "google.com.ds.t" Hdots).
Defined.

Lemma read_table_too_few_dots_witness :
  (count_char "." "ds.t" < 2)%nat ∧
  ∃ msg, read_table legacy_client "ds.t" = Raise (ValueError msg).
Proof.
  assert (Hdots : (count_char "." "ds.t" < 2)%nat) by (vm_compute; lia).
  split; [exact Hdots|].
  exact (read_table_too_few_dots legacy_client "ds.t" Hdots).
Defined.

Lemma read_table_name_round_trip_witness :
  has_char "." "ds" = false ∧
  has_char "." "t" = false ∧
  has_char ":" "ds" = false ∧
  has_char ":" "t" = false ∧
  legacy_client "google.com:proj" "ds" "t" = Ok (legacy_table "google.com:proj:ds.t") ∧
  full_table_id (legacy_table "google.com:proj:ds.t")
  = "google.com:proj" +:+ ":" +:+ "ds" +:+ "." +:+ "t" ∧
  read_table legacy_client ("google.com:proj" +:+ "." +:+ "ds" +:+ "." +:+ "t")
  = Ok (legacy_table "google.com:proj:ds.t") ∧
  _table_name_from_table (legacy_table "google.com:proj:ds.t")
  = Ok ("google.com:proj" +:+ "." +:+ "ds" +:+ "." +:+ "t").
Proof.
  split; [reflexivity|]. split; [reflexivity|]. split; [reflexivity|].
  split; [reflexivity|]. split; [reflexivity|]. split; [reflexivity|].
  exact (read_table_name_round_trip legacy_client "google.com:proj" "ds" "t"
           (legacy_table "google.com:proj:ds.t")
           eq_refl eq_refl eq_refl eq_refl eq_refl eq_refl).
Defined.

Lemma create_nested_mappings_calls_iff_witness :
  _table_name_from_table {| full_table_id := "proj:ds.t"; schema := nested_schema |}
  = Ok "proj.ds.t" ∧
  ∃ calls,
    _create_nested_mappings "idx"
      {| full_table_id := "proj:ds.t"; schema := nested_schema |} None = Ok calls ∧
    (length calls ≤ 1)%nat ∧
    Forall (is_put_mapping "idx") calls ∧
    (calls = [] ↔
       column_in None (field_name <$> nested_schema) = false ∧
       existsb has_repeated_record nested_schema = false).
Proof.
  split; [reflexivity|].
  exact (create_nested_mappings_calls_iff "idx"
           {| full_table_id := "proj:ds.t"; schema := nested_schema |} None
           "proj.ds.t" eq_refl).
Defined.

Lemma index_table_one_bulk_call_witness :
  _table_name_from_table (legacy_table "proj:ds.weight") = Ok "proj.ds.weight" ∧
  "pid" ∈ columns ((λ _, weight_df) (select_all "proj.ds.weight")) ∧
  Forall (λ r : row, ∃ id, r !! "pid" = Some (Some id))
    (rows ((λ _, weight_df) (select_all "proj.ds.weight"))) ∧
  ∃ mapping_calls bulk,
    index_table (H := sorted_order) "idx" (λ _, weight_df)
      (legacy_table "proj:ds.weight") "pid" (Some "sid") ∅
    = (mapping_calls ++ [bulk], Ok ()) ∧
    is_scripts bulk = false ∧
    bulk_ids bulk = [SStr "P1"].
Proof.
  assert (Hname : _table_name_from_table (legacy_table "proj:ds.weight")
                  = Ok "proj.ds.weight") by reflexivity.
  assert (Hpid : "pid" ∈ columns ((λ _, weight_df) (select_all "proj.ds.weight")))
    by (apply (bool_decide_unpack _); vm_compute; exact I).
  assert (Hrows : Forall (λ r : row, ∃ id, r !! "pid" = Some (Some id))
                    (rows ((λ _, weight_df) (select_all "proj.ds.weight"))))
    by (repeat constructor; exists (SStr "P1"); reflexivity).
  split; [exact Hname|]. split; [exact Hpid|]. split; [exact Hrows|].
  destruct (index_table_one_bulk_call (H := sorted_order) "idx" (λ _, weight_df)
              (legacy_table "proj:ds.weight") "pid" (Some "sid") ∅
              "proj.ds.weight" Hname Hpid Hrows)
    as (mapping_calls & bulk & Hcalls & _ & _ & _ & _ & Hscripts & Hids).
  exists mapping_calls, bulk. split; [exact Hcalls|]. split; [exact Hscripts|].
  simpl in Hids. inversion Hids as [|r id l ids Hr Hrest]; subst.
  inversion Hrest; subst. f_equal.
  vm_compute in Hr. by injection Hr as <-.
Defined.

Lemma index_table_null_id_row_witness :
  _table_name_from_table (legacy_table "proj:ds.weight") = Ok "proj.ds.weight" ∧
  "pid" ∈ columns ((λ _, null_id_df) (select_all "proj.ds.weight")) ∧
  rows ((λ _, null_id_df) (select_all "proj.ds.weight"))
  = [weight_row] ++ null_id_row :: [height_row] ∧
  Forall (λ r : row, ∃ id, r !! "pid" = Some (Some id)) [weight_row] ∧
  (null_id_row !! "pid" = None ∨ null_id_row !! "pid" = Some None) ∧
  ∃ mapping_calls bulk,
    index_table (H := sorted_order) "idx" (λ _, null_id_df)
      (legacy_table "proj:ds.weight") "pid" None ∅
    = (mapping_calls ++ [bulk], Raise (KeyError "pid")) ∧
    Forall (λ c, is_bulk c = false) mapping_calls ∧
    is_bulk bulk = true ∧
    Forall2 (λ (r : row) id, r !! "pid" = Some (Some id)) [weight_row] (bulk_ids bulk).
Proof.
  assert (Hname : _table_name_from_table (legacy_table "proj:ds.weight")
                  = Ok "proj.ds.weight") by reflexivity.
  assert (Hpid : "pid" ∈ columns ((λ _, null_id_df) (select_all "proj.ds.weight")))
    by (apply (bool_decide_unpack _); vm_compute; exact I).
  assert (Hgood : Forall (λ r : row, ∃ id, r !! "pid" = Some (Some id)) [weight_row])
    by (repeat constructor; exists (SStr "P1"); reflexivity).
  assert (Hbad : null_id_row !! "pid" = None ∨ null_id_row !! "pid" = Some None)
    by (right; reflexivity).
  split; [exact Hname|]. split; [exact Hpid|]. split; [reflexivity|].
  split; [exact Hgood|]. split; [exact Hbad|].
  exact (index_table_null_id_row (H := sorted_order) "idx" (λ _, null_id_df)
           (legacy_table "proj:ds.weight") "pid" None ∅ "proj.ds.weight"
           [weight_row] null_id_row [height_row] Hname Hpid eq_refl Hgood Hbad).
Defined.

Lemma update_element_without_key_witness :
  samples {| fields := ∅; samples := Some [ ({[ "a" := SInt 1 ]} : dict) ] |}
  = Some [ ({[ "a" := SInt 1 ]} : dict) ] ∧
  Exists (λ x : dict, x !! "sid" = None) [ ({[ "a" := SInt 1 ]} : dict) ] ∧
  UPDATE_SAMPLES_SCRIPT "sid"
    {| fields := ∅; samples := Some [ ({[ "a" := SInt 1 ]} : dict) ] |}
    {[ "sid" := SStr "S1" ]}
  = Raise NullPointerException.
Proof.
  assert (Hex : Exists (λ x : dict, x !! "sid" = None) [ ({[ "a" := SInt 1 ]} : dict) ])
    by (left; reflexivity).
  split; [reflexivity|]. split; [exact Hex|].
  exact (update_element_without_key "sid"
           {| fields := ∅; samples := Some [ ({[ "a" := SInt 1 ]} : dict) ] |}
           {[ "sid" := SStr "S1" ]} _ eq_refl Hex).
Defined.

Lemma update_sample_without_key_witness :
  ({[ "a" := SInt 1 ]} : dict) !! "sid" = None ∧
  Forall (λ x : dict, is_Some (x !! "sid")) (default [] (samples fresh_entity)) ∧
  ∃ ctx',
    UPDATE_SAMPLES_SCRIPT "sid" fresh_entity {[ "a" := SInt 1 ]} = Ok ctx' ∧
    samples ctx' = Some (default [] (samples fresh_entity) ++ [ {[ "a" := SInt 1 ]} ]) ∧
    ∀ sample', UPDATE_SAMPLES_SCRIPT "sid" ctx' sample' = Raise NullPointerException.
Proof.
  assert (Hs : ({[ "a" := SInt 1 ]} : dict) !! "sid" = None) by reflexivity.
  assert (Hkeys : Forall (λ x : dict, is_Some (x !! "sid"))
                    (default [] (samples fresh_entity))) by constructor.
  split; [exact Hs|]. split; [exact Hkeys|].
  exact (update_sample_without_key "sid" fresh_entity {[ "a" := SInt 1 ]} Hs Hkeys).
Defined.

Lemma update_idempotent_witness :
  source_wf "sid" fresh_entity ∧
  ({[ "sid" := SStr "S1"; "a" := SInt 1 ]} : dict) !! "sid" = Some (SStr "S1") ∧
  ∃ ctx',
    UPDATE_SAMPLES_SCRIPT "sid" fresh_entity {[ "sid" := SStr "S1"; "a" := SInt 1 ]}
    = Ok ctx' ∧
    UPDATE_SAMPLES_SCRIPT "sid" ctx' {[ "sid" := SStr "S1"; "a" := SInt 1 ]} = Ok ctx'.
Proof.
  assert (Hs : ({[ "sid" := SStr "S1"; "a" := SInt 1 ]} : dict) !! "sid"
               = Some (SStr "S1")) by reflexivity.
  split; [exact I|]. split; [exact Hs|].
  exact (update_idempotent "sid" fresh_entity
           {[ "sid" := SStr "S1"; "a" := SInt 1 ]} (SStr "S1") I Hs).
Defined.

Lemma update_keeps_other_samples_witness :
  samples {| fields := ∅; samples := Some duplicated_samples |}
  = Some duplicated_samples ∧
  Forall (λ x : dict, is_Some (x !! "sid")) duplicated_samples ∧
  ({[ "sid" := SStr "S1"; "b" := SInt 2 ]} : dict) !! "sid" = Some (SStr "S1") ∧
  ∃ l',
    UPDATE_SAMPLES_SCRIPT "sid" {| fields := ∅; samples := Some duplicated_samples |}
      {[ "sid" := SStr "S1"; "b" := SInt 2 ]}
    = Ok {| fields := ∅; samples := Some l' |} ∧
    filter (λ x : dict, x !! "sid" ≠ Some (SStr "S1")) l'
    = filter (λ x : dict, x !! "sid" ≠ Some (SStr "S1")) duplicated_samples.
Proof.
  assert (Hkeys : Forall (λ x : dict, is_Some (x !! "sid")) duplicated_samples)
    by (repeat constructor; eexists; reflexivity).
  assert (Hs : ({[ "sid" := SStr "S1"; "b" := SInt 2 ]} : dict) !! "sid"
               = Some (SStr "S1")) by reflexivity.
  split; [reflexivity|]. split; [exact Hkeys|]. split; [exact Hs|].
  exact (update_keeps_other_samples "sid"
           {| fields := ∅; samples := Some duplicated_samples |}
           {[ "sid" := SStr "S1"; "b" := SInt 2 ]} duplicated_samples (SStr "S1")
           eq_refl Hkeys Hs).
Defined.

Lemma update_keeps_duplicates_witness :
  samples {| fields := ∅; samples := Some duplicated_samples |}
  = Some duplicated_samples ∧
  Forall (λ x : dict, is_Some (x !! "sid")) duplicated_samples ∧
  ({[ "sid" := SStr "S1"; "b" := SInt 2 ]} : dict) !! "sid" = Some (SStr "S1") ∧
  ∃ l',
    UPDATE_SAMPLES_SCRIPT "sid" {| fields := ∅; samples := Some duplicated_samples |}
      {[ "sid" := SStr "S1"; "b" := SInt 2 ]}
    = Ok {| fields := ∅; samples := Some l' |} ∧
    length (filter (λ x : dict, x !! "sid" = Some (SStr "S1")) l') = 2%nat.
Proof.
  assert (Hkeys : Forall (λ x : dict, is_Some (x !! "sid")) duplicated_samples)
    by (repeat constructor; eexists; reflexivity).
  assert (Hs : ({[ "sid" := SStr "S1"; "b" := SInt 2 ]} : dict) !! "sid"
               = Some (SStr "S1")) by reflexivity.
  split; [reflexivity|]. split; [exact Hkeys|]. split; [exact Hs|].
  destruct (update_keeps_duplicates "sid"
              {| fields := ∅; samples := Some duplicated_samples |}
              {[ "sid" := SStr "S1"; "b" := SInt 2 ]} duplicated_samples (SStr "S1")
              eq_refl Hkeys Hs) as (l' & Hrun & Hcount).
  exists l'. split; [exact Hrun|]. rewrite Hcount. reflexivity.
Defined.

Lemma has_name_normalises_witness :
  is_ascii "Chr 18 VCF" = true ∧
  has_name (lower "Chr 18 VCF") = has_name "Chr 18 VCF" ∧
  has_name (replace_space "Chr 18 VCF") = has_name "Chr 18 VCF".
Proof.
  split; [reflexivity|]. exact (has_name_normalises "Chr 18 VCF" eq_refl).
Defined.

Lemma sample_scripts_flag_value_witness :
  center_row !! "pid" = Some (Some (SStr "P1")) ∧
  has_dot "sid" = false ∧
  "center" ≠ "sid" ∧
  ({[ "Center File" := "proj.ds.center.center" ]} : gmap string string)
    !! "Center File" = Some (scoped "proj.ds.center" "center") ∧
  map_Forall (λ ft _, is_ascii ft = true)
    ({[ "Center File" := "proj.ds.center.center" ]} : gmap string string) ∧
  String.prefix "_has_" (scoped "proj.ds.center" "center") = false ∧
  ∃ s,
    _sample_scripts_by_id_row (H := sorted_order) "proj.ds.center" "pid" "sid"
      {[ "Center File" := "proj.ds.center.center" ]} center_row
    = Ok (SStr "P1", s) ∧
    params_sample s !! "_has_center_file" = Some (SBool true).
Proof.
  assert (Hne : "center" ≠ "sid") by discriminate.
  assert (Hascii : map_Forall (λ ft _, is_ascii ft = true)
            ({[ "Center File" := "proj.ds.center.center" ]} : gmap string string)).
  { apply map_Forall_singleton. reflexivity. }
  assert (Huniq : ∀ ft' col',
            ({[ "Center File" := "proj.ds.center.center" ]} : gmap string string)
              !! ft' = Some col' →
            contains "proj.ds.center" col' = true →
            has_name ft' = has_name "Center File" → ft' = "Center File").
  { intros ft' col' [-> _]%lookup_singleton_Some _ _. reflexivity. }
  assert (Hpair : ({[ "Center File" := "proj.ds.center.center" ]} : gmap string string)
                    !! "Center File" = Some (scoped "proj.ds.center" "center"))
    by reflexivity.
  split; [reflexivity|]. split; [reflexivity|]. split; [exact Hne|].
  split; [exact Hpair|]. split; [exact Hascii|]. split; [reflexivity|].
  destruct (sample_scripts_flag_value (H := sorted_order) "proj.ds.center" "pid" "sid"
              {[ "Center File" := "proj.ds.center.center" ]} center_row (SStr "P1")
              "Center File" "center" eq_refl eq_refl Hne Hpair Hascii Huniq eq_refl)
    as (s & Hs & Hflag).
  exists s. split; [exact Hs|]. exact Hflag.
Defined.

Lemma sample_scripts_no_owned_column_witness :
  (∀ file_type col,
     ({[ "VCF" := "proj.ds.other.vcf" ]} : gmap string string) !! file_type = Some col →
     contains "proj.ds.center" col = false) ∧
  _sample_scripts_by_id_row (H := sorted_order) "proj.ds.center" "pid" "sid"
    {[ "VCF" := "proj.ds.other.vcf" ]} center_row
  = _sample_scripts_by_id_row (H := sorted_order) "proj.ds.center" "pid" "sid"
      ∅ center_row.
Proof.
  assert (Hnone : ∀ file_type col,
     ({[ "VCF" := "proj.ds.other.vcf" ]} : gmap string string) !! file_type = Some col →
     contains "proj.ds.center" col = false).
  { intros file_type col [_ <-]%lookup_singleton_Some. reflexivity. }
  split; [exact Hnone|].
  exact (sample_scripts_no_owned_column (H := sorted_order) "proj.ds.center" "pid" "sid"
           {[ "VCF" := "proj.ds.other.vcf" ]} center_row Hnone).
Defined.

Lemma field_docs_id_is_prefixed_name_witness :
  "proj.ds.t" ≠ "" ∧
  forallb names_nonempty nested_schema = true ∧
  ("proj.ds.t.address.city", field_dict "address.city" (Some "City"))
    ∈ _field_docs_by_id "proj.ds.t" "" nested_schema ∧
  ∃ path, "proj.ds.t.address.city" = "proj.ds.t" +:+ "." +:+ path ∧
          field_dict "address.city" (Some "City") !! "name" = Some (SStr path).
Proof.
  assert (Hne : "proj.ds.t" ≠ "") by discriminate.
  assert (Hin : ("proj.ds.t.address.city", field_dict "address.city" (Some "City"))
                  ∈ _field_docs_by_id "proj.ds.t" "" nested_schema)
    by (right; left).
  split; [exact Hne|]. split; [reflexivity|]. split; [exact Hin|].
  exact (field_docs_id_is_prefixed_name "proj.ds.t" nested_schema _ _ Hne eq_refl Hin).
Defined.

Lemma index_fields_id_prefix_witness :
  _table_name_from_table {| full_table_id := "proj:ds.t"; schema := nested_schema |}
  = Ok "proj.ds.t" ∧
  NoDup (field_name <$> schema {| full_table_id := "proj:ds.t"; schema := nested_schema |}) ∧
  index_fields "idx_fields" {| full_table_id := "proj:ds.t"; schema := nested_schema |}
    (Some "sid")
  = ([BulkIndexDocs "idx_fields"
        [ (SStr "samples.proj.ds.t.sid", {[ "name" := SStr "sid" ]});
          (SStr "samples.proj.ds.t.address.city",
           {[ "name" := SStr "address.city"; "description" := SStr "City" ]}) ]],
     Ok ()).
Proof.
  assert (Hnodup : NoDup (field_name <$>
            schema {| full_table_id := "proj:ds.t"; schema := nested_schema |}))
    by (apply (bool_decide_unpack _); vm_compute; exact I).
  split; [reflexivity|]. split; [exact Hnodup|].
  rewrite (index_fields_id_prefix "idx_fields"
             {| full_table_id := "proj:ds.t"; schema := nested_schema |}
             (Some "sid") "proj.ds.t" eq_refl Hnodup).
  vm_compute. reflexivity.
Defined.

Lemma export_one_record_per_sample_witness :
  Forall (λ ps : string * dict, is_Some (ps.2 !! "sample_id"))
    (scanned_samples exported_hits) ∧
  ∃ entities,
    create_samples_json_export_file (H := sorted_order) exported_hits = Ok entities ∧
    ename <$> entities = [SStr "S1"].
Proof.
  assert (Hids : Forall (λ ps : string * dict, is_Some (ps.2 !! "sample_id"))
                   (scanned_samples exported_hits))
    by (repeat constructor; exists (SStr "S1"); reflexivity).
  split; [exact Hids|].
  destruct (export_one_record_per_sample (H := sorted_order) exported_hits Hids)
    as (entities & Hexport & _).
  exists entities. split; [exact Hexport|].
  vm_compute in Hexport. injection Hexport as <-. reflexivity.
Defined.

Lemma export_participant_attribute_witness :
  ({[ "sample_id" := SStr "S1"; "p.d.t.center" := SStr "A" ]} : dict) !! "sample_id"
  = Some (SStr "S1") ∧
  (∀ name a b c,
     is_Some (({[ "sample_id" := SStr "S1"; "p.d.t.center" := SStr "A" ]} : dict)
                !! name) →
     split_dot name ≠ [a; b; c; "participant"]) ∧
  ∃ e,
    export_sample_entity (H := sorted_order) "P1"
      {[ "sample_id" := SStr "S1"; "p.d.t.center" := SStr "A" ]} = Ok e ∧
    attributes e !! "participant" = Some (SStr "P1").
Proof.
  assert (Hfields : ∀ name a b c,
     is_Some (({[ "sample_id" := SStr "S1"; "p.d.t.center" := SStr "A" ]} : dict)
                !! name) →
     split_dot name ≠ [a; b; c; "participant"]).
  { intros name a b c [v Hv].
    apply lookup_insert_Some in Hv as [[<- _]|[_ Hv]].
    - intros Heq. vm_compute in Heq. discriminate Heq.
    - apply lookup_singleton_Some in Hv as [<- _].
      intros Heq. vm_compute in Heq. discriminate Heq. }
  split; [reflexivity|]. split; [exact Hfields|].
  exact (export_participant_attribute (H := sorted_order) "P1"
           {[ "sample_id" := SStr "S1"; "p.d.t.center" := SStr "A" ]} (SStr "S1")
           eq_refl Hfields).
Defined.
